(** * proxy_target_resolver: a shallow embedding of the target-resolution engine

    The Python module [proxy_target_resolver.py] reads reverse-proxy
    configuration, extracts forward targets and walks them with a worklist
    ([resolve_targets]), asking the operating system which processes are
    bound to every target and which systemd unit owns each process.

    The embedding keeps the code's own data: Python [str] values are
    [string]s, the [details] dict is a [gmap], the [visited] and
    [processed_pids] sets are [gset]s, and the [targets] set is a list with
    an arbitrary pop strategy.  Calls of [subprocess.run] are answered by an
    oracle that sees every earlier call of the run. *)

From Stdlib Require Import Ascii String.
From stdpp Require Import gmap strings list fin_maps.

Local Open Scope string_scope.
Local Arguments Ascii.eqb : simpl never.

(** ** Python string primitives *)

Module PyStr.

(** The double-quote character, written by code point. *)
Definition dquote : ascii := ascii_of_nat 34.

(** [str.isspace] on the code points below 256. *)
Definition isspace (c : ascii) : bool :=
  let n := nat_of_ascii c in
  (((9 <=? n) && (n <=? 13)) || ((28 <=? n) && (n <=? 32))
   || (n =? 133) || (n =? 160))%nat.

Definition is_empty (s : string) : bool :=
  match s with EmptyString => true | String _ _ => false end.

(** [s.startswith(p)] *)
Fixpoint startswith (s p : string) {struct p} : bool :=
  match p, s with
  | EmptyString, _ => true
  | String _ _, EmptyString => false
  | String a p', String b s' => if Ascii.eqb a b then startswith s' p' else false
  end.

(** [p in s] for two strings *)
Fixpoint contains (p s : string) : bool :=
  startswith s p ||
  match s with
  | EmptyString => false
  | String _ s' => contains p s'
  end.

(** [s[n:]] *)
Fixpoint drop (n : nat) (s : string) : string :=
  match n, s with
  | O, _ => s
  | S _, EmptyString => EmptyString
  | S n', String _ s' => drop n' s'
  end.

(** [s.split(sep)] for a one-character separator: never the empty list. *)
Fixpoint split (sep : ascii) (s : string) : list string :=
  match s with
  | EmptyString => [EmptyString]
  | String c s' =>
      if Ascii.eqb c sep then EmptyString :: split sep s'
      else match split sep s' with
           | h :: t => String c h :: t
           | [] => [String c EmptyString]
           end
  end.

(** [s.split()] : maximal runs of non-space characters. *)
Fixpoint split_ws (s : string) : list string :=
  match s with
  | EmptyString => []
  | String c s' =>
      if isspace c then split_ws s'
      else match s' with
           | EmptyString => [String c EmptyString]
           | String c' _ =>
               if isspace c' then String c EmptyString :: split_ws s'
               else match split_ws s' with
                    | h :: t => String c h :: t
                    | [] => [String c EmptyString]
                    end
           end
  end.

Fixpoint lstrip_by (f : ascii -> bool) (s : string) : string :=
  match s with
  | EmptyString => EmptyString
  | String c s' => if f c then lstrip_by f s' else s
  end.

Fixpoint rstrip_by (f : ascii -> bool) (s : string) : string :=
  match s with
  | EmptyString => EmptyString
  | String c s' =>
      let r := rstrip_by f s' in
      if is_empty r && f c then EmptyString else String c r
  end.

Definition strip_by (f : ascii -> bool) (s : string) : string :=
  rstrip_by f (lstrip_by f s).

(** [s.strip()] *)
Definition strip (s : string) : string := strip_by isspace s.

(** [s.strip(c)] for a one-character argument *)
Definition strip_char (c : ascii) (s : string) : string :=
  strip_by (Ascii.eqb c) s.

(** Python truthiness of a [str] *)
Definition truthy (s : string) : bool := negb (is_empty s).

End PyStr.

Local Arguments PyStr.startswith : simpl never.

(** ** The address classifier: [proxypass_target] *)

(** The loop body of [proxypass_target] for one whitespace-separated part:
    [Some r] when the part makes the function return [r], [None] when the
    loop goes on to the next part. *)
Definition proxypass_part (part : string) : option (option string * option string) :=
  if PyStr.contains "|" part then
    let part_1 := nth 0 (PyStr.split "|" part) EmptyString in
    let part_2 := nth 1 (PyStr.split "|" part) EmptyString in
    Some (Some (PyStr.strip_char PyStr.dquote part_1),
          Some (PyStr.strip_char PyStr.dquote part_2))
  else if PyStr.startswith part (String PyStr.dquote "http") then
    Some (Some (PyStr.strip_char PyStr.dquote part), None)
  else if PyStr.startswith part (String PyStr.dquote "unix:") then
    Some (Some (PyStr.strip_char PyStr.dquote part), None)
  else None.

Fixpoint proxypass_parts (parts : list string) : option string * option string :=
  match parts with
  | [] => (None, None)
  | part :: rest =>
      match proxypass_part part with
      | Some r => r
      | None => proxypass_parts rest
      end
  end.

Definition proxypass_target (line : string) : option string * option string :=
  proxypass_parts (PyStr.split_ws line).

(** ** Exceptions *)

(** The exceptions the modelled code can raise.  [OSError msg] stands for
    whatever [subprocess.run] raises, with the text [str(e)] produces. *)
Inductive exn : Type :=
  | ValueError
  | AttributeError
  | TypeError
  | IndexError
  | OSError (msg : string).

(** [try: body except Exception as e: return handler(e)] where the handler
    itself only builds a value. *)
Definition try_except {A : Type} (body : exn + A) (handler : exn -> A) : A :=
  match body with
  | inl e => handler e
  | inr a => a
  end.

(** ** Values exchanged with the probes *)

(** One element of a probe's list: the probes of this module produce [str]
    process identifiers; the discovery step of [resolve_targets] also reads
    entries as dicts with a ['name'] key. *)
Inductive entry : Type :=
  | EStr (s : string)
  | EDict (d : gmap string string).

(** What a probe hands back: a list of entries, or a [str] (the error
    message of [check_port_usage]).  [resolve_targets] only asks
    [isinstance(usage_info, list)]. *)
Inductive usage : Type :=
  | UList (l : list entry)
  | UStr (s : string).

Definition is_list (u : usage) : bool :=
  match u with UList _ => true | UStr _ => false end.

(** An external call made by one of the three helper functions, in the
    order [lsof -i @host:port], [lsof path], [systemctl status pid]. *)
Inductive call : Type :=
  | CallPort (host port : string)
  | CallUnix (socket_path : string)
  | CallService (pid : string).

(** ** The helper functions that shell out *)

Module OS.
Section OS.

(** [subprocess.run(argv, ...)] as seen by the program: given the calls
    already made in this run (latest first) and the command line, either
    the captured standard output or the text of the exception raised. *)
Variable subprocess_run : list call -> list string -> string + string.

Definition run (history : list call) (argv : list string) : exn + string :=
  match subprocess_run history argv with
  | inl stdout => inr stdout
  | inr msg => inl (OSError msg)
  end.

(** [str(e)] for the exceptions that can reach an [except] clause of this
    module: a failure of [subprocess.run] or an [IndexError] on a list. *)
Definition exn_str (e : exn) : string :=
  match e with
  | OSError msg => msg
  | IndexError => "list index out of range"
  | _ => EmptyString
  end.

Definition lines_of (stdout : string) : list entry :=
  EStr <$> PyStr.split "010" (PyStr.strip stdout).

Definition check_port_usage (history : list call) (host port : string) : usage :=
  try_except
    (match run history ["sudo"; "lsof"; "-t"; "-i"; "@" +:+ host +:+ ":" +:+ port] with
     | inl e => inl e
     | inr stdout => inr (UList (lines_of stdout))
     end)
    (fun e => UStr ("Error checking port " +:+ port +:+ " on " +:+ host +:+ ": " +:+ exn_str e)).

Definition check_unix_socket_usage (history : list call) (socket_path : string) : usage :=
  try_except
    (match run history ["sudo"; "lsof"; "-t"; socket_path] with
     | inl e => inl e
     | inr stdout => inr (UList (lines_of stdout))
     end)
    (fun _ => UList []).

(** [lst[i]] *)
Definition index {A : Type} (l : list A) (i : nat) : exn + A :=
  match l !! i with
  | Some a => inr a
  | None => inl IndexError
  end.

Definition parse_systemctl_service_status (status : string) : exn + (string * string) :=
  let lines := PyStr.split "010" status in
  match index lines 0 with
  | inl e => inl e
  | inr line0 =>
      match index (PyStr.split " " line0) 1 with
      | inl e => inl e
      | inr service_name =>
          match lines !! 2 with
          | Some line2 =>
              if PyStr.contains ":" line2 then
                match index (PyStr.split ":" line2) 1 with
                | inl e => inl e
                | inr st => inr (service_name, PyStr.strip st)
                end
              else inr (service_name, "unknown")
          | None => inr (service_name, "unknown")
          end
      end
  end.

(** The body of the [try] block of [get_systemctl_service]. *)
Definition get_systemctl_service_try (history : list call) (pid : string) : exn + string :=
  match run history ["sudo"; "systemctl"; "status"; pid] with
  | inl e => inl e
  | inr stdout =>
      match parse_systemctl_service_status (PyStr.strip stdout) with
      | inl e => inl e
      | inr (service_name, _) => inr service_name
      end
  end.

Definition get_systemctl_service (history : list call) (pid : string) : string :=
  try_except (get_systemctl_service_try history pid)
             (fun e => "Error finding service: " +:+ exn_str e).

End OS.
End OS.

(** ** The resolution engine: [resolve_targets] *)

(** An element of the [targets] set: the Apache reader adds the pair that
    [proxypass_target] returns, the Nginx reader and the discovery step of
    [resolve_targets] add plain strings. *)
Inductive target : Type :=
  | TStr (s : string)
  | TPair (primary failover : option string).

Global Instance target_eq_dec : EqDecision target.
Proof. solve_decision. Defined.

(** The value stored in [details] for one target.  [list(systemctl_services)]
    has no defined order, so the set itself is kept. *)
Record record : Type := Record_ {
  usage_info : usage;
  systemctl_service : gset string
}.

(** The calls of [logging] made by [resolve_targets], except the dump of the
    whole [targets] set at the top of the loop. *)
Inductive log_event : Type :=
  | LogFailover (failover : string)
  | LogResolving (target : string)
  | LogUnixSocket (target : string)
  | LogUnexpected (target : string).

(** The local variables of [resolve_targets], with the external calls and
    the log as they have been produced so far (latest first). *)
Record state : Type := State {
  targets : list target;
  visited : gset string;
  details : gmap string record;
  processed_pids : gset string;
  calls : list call;
  log : list log_event
}.

(** How a run, or one turn of the loop, ends.  When an exception leaves
    [resolve_targets] its locals are gone; the calls already made are not. *)
Inductive outcome : Type :=
  | Returned (st : state)
  | Raised (e : exn) (made : list call)
  | OutOfFuel.

(** Where a target lives once [resolve_targets] has read it. *)
Inductive address : Type :=
  | Unix (socket_path : string)
  | Tcp (host port : string).

(** [primary, failover = target] *)
Definition unpack (t : target) : exn + (option string * option string) :=
  match t with
  | TPair primary failover => inr (primary, failover)
  | TStr (String a (String b EmptyString)) =>
      inr (Some (String a EmptyString), Some (String b EmptyString))
  | TStr _ => inl ValueError
  end.

Definition truthy_opt (o : option string) : bool :=
  match o with
  | Some s => PyStr.truthy s
  | None => false
  end.

(** Lines 299-307: the key under which the target is stored and the address
    that is probed.  [host, port = target.split(":")] needs exactly two
    fields. *)
Definition locate (target : string) : exn + (string * address) :=
  if PyStr.startswith target "unix:" then
    inr (target, Unix (PyStr.drop 5 target))
  else
    let target := if PyStr.startswith target "http://" then PyStr.drop 7 target else target in
    match (if PyStr.contains ":" target then PyStr.split ":" target else [target; "80"]) with
    | [host; port] => inr (target, Tcp host port)
    | _ => inl ValueError
    end.

Definition call_of (a : address) : call :=
  match a with
  | Unix socket_path => CallUnix socket_path
  | Tcp host port => CallPort host port
  end.

(** [targets.add(t)] on the list that stands for the set. *)
Definition set_add (t : target) (l : list target) : list target :=
  if decide (t ∈ l) then l else l ++ [t].

(** A list comprehension whose element expression may raise. *)
Fixpoint comprehension {A : Type} (f : entry -> exn + option A) (l : list entry)
  : exn + list A :=
  match l with
  | [] => inr []
  | e :: l' =>
      match f e with
      | inl x => inl x
      | inr o =>
          match comprehension f l' with
          | inl x => inl x
          | inr r => inr (match o with Some a => a :: r | None => r end)
          end
      end
  end.

(** ['name' in entry and entry['name'].startswith(prefix)], then the
    element expression [pick entry['name']].  On a [str] entry [in] is the
    substring test and [entry['name']] raises [TypeError]. *)
Definition named (prefix : string) (pick : string -> string) (e : entry)
  : exn + option string :=
  match e with
  | EStr s => if PyStr.contains "name" s then inl TypeError else inr None
  | EDict d =>
      match d !! "name" with
      | Some name => if PyStr.startswith name prefix then inr (Some (pick name)) else inr None
      | None => inr None
      end
  end.

Definition new_ports (usage_info : list entry) : exn + list string :=
  comprehension (named "127.0.0.1:" (fun name => nth 1 (PyStr.split ":" name) EmptyString))
                usage_info.

Definition new_sockets (usage_info : list entry) : exn + list string :=
  comprehension (named "unix:" (PyStr.drop 5)) usage_info.

(** [for x in news: new_target = prefix + x; if new_target not in visited:
    targets.add(new_target)] *)
Definition enqueue (prefix : string) (visited : gset string)
    (frontier : list target) (news : list string) : list target :=
  foldl (fun fr x =>
           let new_target := prefix +:+ x in
           if decide (new_target ∈ visited) then fr else set_add (TStr new_target) fr)
        frontier news.

(** Lines 327-338 for a list [usage_info]. *)
Definition discover (usage_info : list entry) (visited : gset string)
    (frontier : list target) : exn + list target :=
  match new_ports usage_info with
  | inl e => inl e
  | inr ports =>
      let frontier := enqueue "127.0.0.1:" visited frontier ports in
      match new_sockets usage_info with
      | inl e => inl e
      | inr sockets => inr (enqueue "unix:" visited frontier sockets)
      end
  end.

Section Engine.

(** The three module-level functions [resolve_targets] calls, each given
    the calls made before it; [OS] above has the module's own. *)
Variable check_port_usage : list call -> string -> string -> usage.
Variable check_unix_socket_usage : list call -> string -> usage.
Variable get_systemctl_service : list call -> string -> string.

(** [set.pop()] removes an arbitrary element: the element at this index
    (modulo the size) of the list that stands for the set.  The choice may
    depend on everything that happened in the run so far. *)
Variable pop_index : state -> nat.

Definition set_pop (st : state) : option (target * list target) :=
  let l := targets st in
  let i := (pop_index st mod length l)%nat in
  match l !! i with
  | Some t => Some (t, delete i l)
  | None => None
  end.

Definition probe (history : list call) (a : address) : usage :=
  match a with
  | Unix socket_path => check_unix_socket_usage history socket_path
  | Tcp host port => check_port_usage history host port
  end.

(** One turn of [for entry in usage_info] (lines 311-317) on the triple
    [(systemctl_services, processed_pids, calls)]. *)
Definition lookup_step (acc : gset string * gset string * list call) (e : entry)
  : gset string * gset string * list call :=
  let '(services, processed, made) := acc in
  match e with
  | EStr pid =>
      if PyStr.truthy pid && bool_decide (pid ∉ processed) then
        ({[get_systemctl_service made pid]} ∪ services,
         {[pid]} ∪ processed,
         CallService pid :: made)
      else acc
  | EDict _ => acc
  end.

Definition lookup_services (usage_info : usage) (processed : gset string)
    (made : list call) : gset string * gset string * list call :=
  match usage_info with
  | UList l => foldl lookup_step (∅, processed, made) l
  | UStr _ => (∅, processed, made)
  end.

(** The body of [while targets:] once [target = targets.pop()] has left
    [rest] in the set. *)
Definition loop_body (st : state) (popped : target) (rest : list target) : outcome :=
  match unpack popped with
  | inl e => Raised e (calls st)
  | inr (primary, failover) =>
      let log1 :=
        match failover with
        | Some f => if truthy_opt primary && PyStr.truthy f
                    then LogFailover f :: log st else log st
        | None => log st
        end in
      match primary with
      | None => Raised AttributeError (calls st)
      | Some target =>
          let log2 := LogResolving target :: log1 in
          let visited' := {[target]} ∪ visited st in
          match locate target with
          | inl e => Raised e (calls st)
          | inr (key, addr) =>
              let log3 := match addr with
                          | Unix _ => LogUnixSocket target :: log2
                          | Tcp _ _ => log2
                          end in
              let usage_info := probe (calls st) addr in
              let '(services, processed', made) :=
                lookup_services usage_info (processed_pids st) (call_of addr :: calls st) in
              let log4 := if is_list usage_info then log3 else LogUnexpected key :: log3 in
              let details' := <[key := Record_ usage_info services]> (details st) in
              match usage_info with
              | UList l =>
                  match discover l visited' rest with
                  | inl e => Raised e made
                  | inr frontier => Returned (State frontier visited' details' processed' made log4)
                  end
              | UStr _ => Returned (State rest visited' details' processed' made log4)
              end
          end
      end
  end.

(** [while targets: ...] with a bound on the number of turns. *)
Fixpoint resolve_loop (fuel : nat) (st : state) : outcome :=
  match set_pop st with
  | None => Returned st
  | Some (popped, rest) =>
      match fuel with
      | O => OutOfFuel
      | S fuel' =>
          match loop_body st popped rest with
          | Returned st' => resolve_loop fuel' st'
          | o => o
          end
      end
  end.

Definition initial (targets : list target) : state :=
  State targets ∅ ∅ ∅ [] [].

Definition resolve_targets (fuel : nat) (targets : list target) : outcome :=
  resolve_loop fuel (initial targets).

End Engine.

(** ** The classifier as the specification words it *)

Module Spec.

(** Section 4.1, for one directive value: a value with a [|] separator is
    split and both sides lose their quotes; a value that begins with the
    http scheme or the [unix:] prefix is the primary; anything else is no
    proxy target. *)
Definition classify_value (v : string) : option (option string * option string) :=
  if PyStr.contains "|" v then
    Some (Some (PyStr.strip_char PyStr.dquote (nth 0 (PyStr.split "|" v) EmptyString)),
          Some (PyStr.strip_char PyStr.dquote (nth 1 (PyStr.split "|" v) EmptyString)))
  else if PyStr.startswith v "http" || PyStr.startswith v "unix:" then
    Some (Some v, None)
  else None.

Fixpoint classify_values (vs : list string) : option string * option string :=
  match vs with
  | [] => (None, None)
  | v :: rest =>
      match classify_value v with
      | Some r => r
      | None => classify_values rest
      end
  end.

Definition classifier (line : string) : option string * option string :=
  classify_values (PyStr.split_ws line).

End Spec.

(** A part of a line that ends the scan of [proxypass_target]. *)
Definition quoted_target (part : string) : bool :=
  PyStr.startswith part (String PyStr.dquote "http")
  || PyStr.startswith part (String PyStr.dquote "unix:").

Definition qualifies (part : string) : bool :=
  PyStr.contains "|" part || quoted_target part.

(** The last character of a string, if any. *)
Fixpoint last_char (s : string) : option ascii :=
  match s with
  | EmptyString => None
  | String c EmptyString => Some c
  | String _ s' => last_char s'
  end.

(** ** Measures and observations used by the statements *)

(** Can [primary, failover = target] succeed on this element? *)
Definition unpackable (t : target) : bool :=
  match unpack t with
  | inr _ => true
  | inl _ => false
  end.

(** The number of elements of the frontier that survive the unpacking. *)
Fixpoint pending (l : list target) : nat :=
  match l with
  | [] => 0
  | t :: l' => (if unpackable t then 1 else 0) + pending l'
  end.

(** The primary of an element, when the unpacking yields one. *)
Definition primary_of (t : target) : option string :=
  match unpack t with
  | inr (Some primary, _) => Some primary
  | _ => None
  end.

(** The addresses the log reports as popped and resolved. *)
Definition resolved (l : list log_event) : list string :=
  omap (fun ev => match ev with LogResolving t => Some t | _ => None end) l.

(** The process identifiers handed to [get_systemctl_service]. *)
Definition service_pids (l : list call) : list string :=
  omap (fun c => match c with CallService pid => Some pid | _ => None end) l.

(** The calls of an outcome: those of the final state, or those made before
    the exception. *)
Definition calls_of (o : outcome) : list call :=
  match o with
  | Returned st => calls st
  | Raised _ made => made
  | OutOfFuel => []
  end.

(** ** Scripted probes for the worked examples *)

Module Script.

(** A chain of local proxies: the listener on 8080 forwards to 8081, that
    one to 8082. *)
Definition chain_port (history : list call) (host port : string) : usage :=
  if String.eqb port "8080" then UList [EDict {["name" := "127.0.0.1:8081"]}]
  else if String.eqb port "8081" then UList [EDict {["name" := "127.0.0.1:8082"]}]
  else UList [].

(** Two proxies that forward to each other. *)
Definition cycle_port (history : list call) (host port : string) : usage :=
  if String.eqb port "8080" then UList [EDict {["name" := "127.0.0.1:8081"]}]
  else if String.eqb port "8081" then UList [EDict {["name" := "127.0.0.1:8080"]}]
  else UList [].

Definition no_unix (history : list call) (socket_path : string) : usage := UList [].

Definition unit_of (history : list call) (pid : string) : string :=
  pid +:+ ".service".

(** [set.pop()] that takes the oldest element. *)
Definition oldest (st : state) : nat := 0.

Definition proxy_8080 : target := TPair (Some "127.0.0.1:8080") None.
Definition proxy_8081 : target := TPair (Some "127.0.0.1:8081") None.

(** A host as [subprocess.run] shows it: [lsof] is refused for port 7000 and
    reports process 4242 on any other port; a socket is held by process 100
    on the first call of a run and by process 200 afterwards; every process
    belongs to a unit named after it. *)
Definition nl : string := String "010" EmptyString.

Definition host (history : list call) (argv : list string) : string + string :=
  match argv with
  | [_; _; _; _; address] =>
      if String.eqb address "@127.0.0.1:7000"
      then inr "[Errno 13] Permission denied: 'sudo'"
      else inl ("4242" +:+ nl)
  | [_; tool; _; arg] =>
      if String.eqb tool "lsof" then
        match history with
        | [] => inl ("100" +:+ nl)
        | _ :: _ => inl ("200" +:+ nl)
        end
      else
        inl ("* app@" +:+ arg +:+ ".service - App" +:+ nl +:+ "   Loaded: loaded" +:+ nl
             +:+ "   Active: active (running)" +:+ nl)
  | _ => inr "command not found"
  end.

Definition app_sock : target := TPair (Some "unix:/run/app.sock") None.
Definition app_sock_failover : target :=
  TPair (Some "unix:/run/app.sock") (Some "http://127.0.0.1/").
Definition refused_7000 : target := TPair (Some "http://127.0.0.1:7000") None.
Definition backend_7001 : target := TPair (Some "127.0.0.1:7001") None.
Definition failover_9000 : target :=
  TPair (Some "http://127.0.0.1:9000") (Some "http://127.0.0.1:9001").

(** The run on [app_sock] and [app_sock_failover], oldest first: the state
    after the first turn and after the second. *)
Definition after_app_sock : state :=
  State [app_sock_failover]
        {["unix:/run/app.sock"]}
        {["unix:/run/app.sock" := Record_ (UList [EStr "100"]) {["app@100.service"]}]}
        {["100"]}
        [CallService "100"; CallUnix "/run/app.sock"]
        [LogUnixSocket "unix:/run/app.sock"; LogResolving "unix:/run/app.sock"].

Definition after_app_sock_failover : state :=
  State []
        {["unix:/run/app.sock"]}
        {["unix:/run/app.sock" := Record_ (UList [EStr "200"]) {["app@200.service"]}]}
        {["100"; "200"]}
        [CallService "200"; CallUnix "/run/app.sock";
         CallService "100"; CallUnix "/run/app.sock"]
        [LogUnixSocket "unix:/run/app.sock"; LogResolving "unix:/run/app.sock";
         LogFailover "http://127.0.0.1/";
         LogUnixSocket "unix:/run/app.sock"; LogResolving "unix:/run/app.sock"].

End Script.

(** A frontier element that [resolve_targets] cannot take: a plain string
    with one of the two discovery prefixes, not two characters long, whose
    pop raises [ValueError] at [primary, failover = target]. *)
Definition raises_on_pop
    (check_port_usage : list call -> string -> string -> usage)
    (check_unix_socket_usage : list call -> string -> usage)
    (get_systemctl_service : list call -> string -> string)
    (d : target) : Prop :=
  exists s,
    d = TStr s
    /\ (PyStr.startswith s "127.0.0.1:" = true \/ PyStr.startswith s "unix:" = true)
    /\ String.length s <> 2
    /\ unpack d = inl ValueError
    /\ forall st rest,
         loop_body check_port_usage check_unix_socket_usage get_systemctl_service
           st d rest = Raised ValueError (calls st).

(** The state after the first turn on [Script.proxy_8080] with the chain
    script. *)
Definition chain_after_8080 : state :=
  State [TStr "127.0.0.1:8081"]
        {["127.0.0.1:8080"]}
        {["127.0.0.1:8080" := Record_ (UList [EDict {["name" := "127.0.0.1:8081"]}]) ∅]}
        ∅
        [CallPort "127.0.0.1" "8080"]
        [LogResolving "127.0.0.1:8080"].

(** An outcome with the log left out. *)
Definition erase_log (o : outcome) : outcome :=
  match o with
  | Returned st =>
      Returned (State (targets st) (visited st) (details st) (processed_pids st) (calls st) [])
  | o => o
  end.

(** A state with another [details] dict. *)
Definition with_details (d : gmap string record) (st : state) : state :=
  State (targets st) (visited st) d (processed_pids st) (calls st) (log st).

(** The dict key of a frontier element and whether [resolve_targets] gets
    as far as probing it. *)
Definition key_of (t : target) : option string :=
  match unpack t with
  | inr (Some target, _) =>
      match locate target with
      | inr (key, _) => Some key
      | inl _ => None
      end
  | _ => None
  end.

Definition well_formed (t : target) : bool :=
  match key_of t with
  | Some _ => true
  | None => false
  end.

(** A probe result that gives the discovery step nothing to read: not a
    list, or a list of strings without [name] in them and of dicts without a
    ['name'] that begins with [127.0.0.1:] or [unix:]. *)
Definition quiet_entry (e : entry) : bool :=
  match e with
  | EStr s => negb (PyStr.contains "name" s)
  | EDict d =>
      match d !! "name" with
      | Some name =>
          negb (PyStr.startswith name "127.0.0.1:") && negb (PyStr.startswith name "unix:")
      | None => true
      end
  end.

Definition quiet (u : usage) : bool :=
  match u with
  | UList l => forallb quiet_entry l
  | UStr _ => true
  end.

(** What the overwrite of a [details] entry amounts to, for the turn that
    takes [st] to [st'] on [popped]: the record stored under the key is the
    one built from this turn's probe and lookups, every other key is left
    alone, and whatever the dict held before, under that key or any other,
    the turn returns all the same. *)
Definition overwrites
    (check_port_usage : list call -> string -> string -> usage)
    (check_unix_socket_usage : list call -> string -> usage)
    (get_systemctl_service : list call -> string -> string)
    (st st' : state) (popped : target) (rest : list target) : Prop :=
  exists target failover key addr,
    let usage_info := probe check_port_usage check_unix_socket_usage (calls st) addr in
    let services :=
      (lookup_services get_systemctl_service usage_info (processed_pids st)
         (call_of addr :: calls st)).1.1 in
    unpack popped = inr (Some target, failover)
    /\ locate target = inr (key, addr)
    /\ details st' !! key = Some (Record_ usage_info services)
    /\ (forall k, k <> key -> details st' !! k = details st !! k)
    /\ forall earlier,
         loop_body check_port_usage check_unix_socket_usage get_systemctl_service
           (with_details earlier st) popped rest
         = Returned (with_details (<[key := Record_ usage_info services]> earlier) st').

(** An element the discovery step adds: a string too long to be unpacked. *)
Definition discovered (d : target) : Prop :=
  exists p x, (p = "127.0.0.1:" \/ p = "unix:") /\ d = TStr (p +:+ x).

(** [resolve_targets] with this module's own helper functions. *)
Definition own_run (subprocess_run : list call -> list string -> string + string) :=
  resolve_targets (OS.check_port_usage subprocess_run)
                  (OS.check_unix_socket_usage subprocess_run)
                  (OS.get_systemctl_service subprocess_run).

(** The record a run returns under a key. *)
Definition stored_for (key : string) (o : outcome) : option record :=
  match o with
  | Returned st => details st !! key
  | _ => None
  end.

(** ** The rest of the module: more string primitives *)

Module PyStr2.

(** [sep.join(parts)] *)
Fixpoint join (sep : string) (parts : list string) : string :=
  match parts with
  | [] => EmptyString
  | [p] => p
  | p :: rest => p +:+ sep +:+ join sep rest
  end.

(** [s.endswith(suffix)] *)
Fixpoint endswith (s suffix : string) : bool :=
  String.eqb s suffix ||
  match s with
  | EmptyString => false
  | String _ s' => endswith s' suffix
  end.

(** [s.count(c)] for a one-character argument *)
Fixpoint count (c : ascii) (s : string) : nat :=
  match s with
  | EmptyString => 0
  | String d s' => (if Ascii.eqb d c then 1 else 0) + count c s'
  end.

(** No character of [s] satisfies [f]. *)
Fixpoint free_of (f : ascii -> bool) (s : string) : bool :=
  match s with
  | EmptyString => true
  | String c s' => negb (f c) && free_of f s'
  end.

(** What [str.split()] produces: a non-empty string without white space. *)
Definition is_token (s : string) : bool :=
  negb (PyStr.is_empty s) && free_of PyStr.isspace s.

End PyStr2.

(** ** [reconstruct_line] *)

(** The [for part in parts] loop with its [break] at the first part that
    starts with [#]. *)
Fixpoint uncommented (parts : list string) : list string :=
  match parts with
  | [] => []
  | part :: rest =>
      if PyStr.startswith part "#" then [] else part :: uncommented rest
  end.

Definition reconstruct_line (line : string) : string :=
  PyStr2.join " " (uncommented (PyStr.split_ws line)).

(** ** The configuration readers *)

(** The body of [for line in file] of [read_nginx_config] on the pair
    [(targets, domains)]. *)
Definition nginx_line (line : string) (acc : gset string * gset string)
  : gset string * gset string :=
  let '(targets, domains) := acc in
  let targets :=
    if PyStr.contains "proxy_pass" line then
      match PyStr.split_ws line with
      | _ :: part1 :: _ =>
          if PyStr.startswith part1 "http"
          then {[PyStr.strip_char ";" part1]} ∪ targets
          else targets
      | _ => targets
      end
    else targets in
  let domains :=
    if PyStr.contains "server_name" line then
      match PyStr.split_ws line with
      | _ :: (_ :: _) as names => list_to_set names ∪ domains
      | _ => domains
      end
    else domains in
  (targets, domains).

(** The [_info] dict of [read_apache_config]: the three keys it can get. *)
Record info : Type := Info {
  proxypass : option (option string * option string);
  name : option string;
  alias : option (list string)
}.

Definition empty_info : info := Info None None None.

(** The variables of [read_apache_config] shared by all files.  A dict
    stored in [infos] is stored by reference: [a_infos] maps a key to the
    position of the [_info] object in [a_heap]. *)
Record apache : Type := Apache {
  a_targets : gset (option string * option string);
  a_domains : gset string;
  a_infos : gmap (option string) nat;
  a_heap : list info
}.

(** [_info[key] = value] on the [_info] object of the file, at position
    [cur] of the heap. *)
Definition update_info (cur : nat) (f : info -> info) (st : apache) : apache :=
  Apache (a_targets st) (a_domains st) (a_infos st) (alter f cur (a_heap st)).

(** Lines 128-131 *)
Definition directive_proxypass (cur : nat) (line : string) (st : apache) : apache :=
  if PyStr.contains "ProxyPass" line then
    let target := proxypass_target line in
    let st := update_info cur (fun i => Info (Some target) (name i) (alias i)) st in
    Apache ({[target]} ∪ a_targets st) (a_domains st) (a_infos st) (a_heap st)
  else st.

(** Lines 135-140 *)
Definition directive_servername (cur : nat) (line : string) (st : apache) : apache :=
  if PyStr.contains "ServerName" line then
    match PyStr.split_ws line with
    | _ :: part1 :: _ =>
        let name := PyStr.strip part1 in
        let st := update_info cur (fun i => Info (proxypass i) (Some name) (alias i)) st in
        Apache (a_targets st) ({[name]} ∪ a_domains st) (a_infos st) (a_heap st)
    | _ => st
    end
  else st.

(** Lines 142-146 *)
Definition directive_serveralias (cur : nat) (line : string) (st : apache) : apache :=
  if PyStr.contains "ServerAlias" line then
    match PyStr.split_ws line with
    | _ :: (_ :: _) as names =>
        let st := update_info cur (fun i => Info (proxypass i) (name i) (Some names)) st in
        Apache (a_targets st) (list_to_set names ∪ a_domains st) (a_infos st) (a_heap st)
    | _ => st
    end
  else st.

(** Lines 126-146: the directives read from a line inside a virtual host,
    once its comment is gone.  [cur] is the [_info] object of the file. *)
Definition apache_directives (cur : nat) (line : string) (st : apache) : apache :=
  directive_serveralias cur line
    (directive_servername cur line
       (directive_proxypass cur line st)).

(** Lines 149-152: the end of a virtual host stores the file's [_info]
    object under the first component of its [proxypass]; a tuple of two is
    always true, also [(None, None)]. *)
Definition apache_close (cur : nat) (st : apache) : apache :=
  match a_heap st !! cur with
  | Some i =>
      match proxypass i with
      | Some target =>
          Apache (a_targets st) (a_domains st) (<[target.1 := cur]> (a_infos st)) (a_heap st)
      | None => st
      end
  | None => st
  end.

(** The body of [for line in file] of [read_apache_config] on
    [(in_virtual_host, shared variables)]. *)
Definition apache_line (cur : nat) (line : string) (s : bool * apache) : bool * apache :=
  let '(in_virtual_host, st) := s in
  let in_virtual_host :=
    if PyStr.startswith (PyStr.strip line) "<VirtualHost" then true else in_virtual_host in
  let in_comment := PyStr.startswith (PyStr.strip line) "#" in
  let '(line, st) :=
    if in_virtual_host && negb in_comment
    then (reconstruct_line line, apache_directives cur (reconstruct_line line) st)
    else (line, st) in
  if PyStr.startswith (PyStr.strip line) "</VirtualHost>"
  then (false, apache_close cur st)
  else (in_virtual_host, st).

(** One file of [read_apache_config]: a fresh [_info], [in_virtual_host]
    false, then the lines in order. *)
Definition apache_file (lines : list string) (st : apache) : apache :=
  let cur := length (a_heap st) in
  let st := Apache (a_targets st) (a_domains st) (a_infos st) (a_heap st ++ [empty_info]) in
  (foldl (fun s line => apache_line cur line s) (false, st) lines).2.

Definition nginx_file (lines : list string) (acc : gset string * gset string)
  : gset string * gset string :=
  foldl (fun a line => nginx_line line a) acc lines.

(** [os.path.join(config_dir, filename)] for the directories of this
    module, none of which ends with a slash. *)
Definition path_join (config_dir filename : string) : string :=
  if PyStr.startswith filename "/" then filename
  else config_dir +:+ "/" +:+ filename.

Section Readers.

(** The file system as the readers see it: [os.path.exists],
    [os.listdir] and [open] followed by the iteration over the lines, the
    last two with the exception they may raise. *)
Variable path_exists : string -> bool.
Variable listdir : string -> exn + list string.
Variable read_lines : string -> exn + list string.

(** [for filename in os.listdir(config_dir): ... for line in file: ...] *)
Fixpoint read_files {S : Type} (file : list string -> S -> S)
    (config_dir : string) (filenames : list string) (acc : S) : exn + S :=
  match filenames with
  | [] => inr acc
  | filename :: rest =>
      match read_lines (path_join config_dir filename) with
      | inl e => inl e
      | inr lines => read_files file config_dir rest (file lines acc)
      end
  end.

(** [for config_dir in config_dirs: if os.path.exists(config_dir): ...] *)
Fixpoint read_dirs {S : Type} (file : list string -> S -> S)
    (config_dirs : list string) (acc : S) : exn + S :=
  match config_dirs with
  | [] => inr acc
  | config_dir :: rest =>
      if path_exists config_dir then
        match listdir config_dir with
        | inl e => inl e
        | inr filenames =>
            match read_files file config_dir filenames acc with
            | inl e => inl e
            | inr acc' => read_dirs file rest acc'
            end
        end
      else read_dirs file rest acc
  end.

Definition read_nginx_config : exn + (gset string * gset string) :=
  read_dirs nginx_file ["/etc/nginx/sites-enabled"; "/etc/nginx/conf.d"] (∅, ∅).

Definition read_apache_config : exn + apache :=
  read_dirs apache_file ["/etc/apache2/sites-enabled"; "/etc/apache2/conf-enabled"]
            (Apache ∅ ∅ ∅ []).

End Readers.

(** [all_targets = nginx_targets.union(apache_targets)] as a frontier: any
    list with these elements. *)
Definition is_frontier_of (nginx_targets : gset string)
    (apache_targets : gset (option string * option string)) (frontier : list target) : Prop :=
  forall t, t ∈ frontier <->
    (exists s, s ∈ nginx_targets /\ t = TStr s)
    \/ (exists p, p ∈ apache_targets /\ t = TPair p.1 p.2).

(** ** [check_process_usage] *)

Definition check_process_usage
    (subprocess_run : list call -> list string -> string + string)
    (history : list call) (process_name : string) : string :=
  try_except
    (match OS.run subprocess_run history ["pgrep"; "-a"; process_name] with
     | inl e => inl e
     | inr stdout => inr (PyStr.strip stdout)
     end)
    (fun e => "Error checking process " +:+ process_name +:+ ": " +:+ OS.exn_str e).

(** ** The report of [main] *)

(** Lines 371-372: the key under which [main] looks a resolved target up
    in [infos]. *)
Definition report_key (target : string) : string :=
  if PyStr2.endswith target "/" then "http://" +:+ target else target.

(** [infos[target]["name"]] on a dict without that key. *)
Inductive report_error : Type :=
  | KeyError (key : string).

(** Lines 374-378.  [associated_domains = infos[target]["alias"]] binds the
    list stored in the dict, so the [append] changes the dict as well; the
    result is the list printed and the heap afterwards. *)
Definition associated_domains (infos : gmap (option string) nat) (heap : list info)
    (target : string) : report_error + (list string * list info) :=
  match infos !! Some target with
  | None => inr ([], heap)
  | Some id =>
      match heap !! id with
      | None => inr ([], heap)
      | Some i =>
          match name i with
          | None => inl (KeyError "name")
          | Some n =>
              match alias i with
              | Some names =>
                  inr ((names ++ [n])%list,
                       <[id := Info (proxypass i) (name i) (Some (names ++ [n])%list)]> heap)
              | None => inr ([n], heap)
              end
          end
      end
  end.

(** The part of a TCP target that is split into host and port. *)
Definition without_scheme (target : string) : string :=
  if PyStr.startswith target "http://" then PyStr.drop 7 target else target.

(** The probe calls among the calls of a run. *)
Definition probe_calls (l : list call) : list call :=
  omap (fun c => match c with CallService _ => None | _ => Some c end) l.

(** The address [resolve_targets] probes for a frontier element. *)
Definition address_of (t : target) : option address :=
  match unpack t with
  | inr (Some target, _) =>
      match locate target with
      | inr (_, addr) => Some addr
      | inl _ => None
      end
  | _ => None
  end.

(** States of a run on two back ends served by the same process, on the
    scripted host: after the first turn and after the second. *)
Module Script2.

Definition backend_7002 : target := TPair (Some "127.0.0.1:7002") None.

Definition after_7001 : state :=
  State [backend_7002]
        {["127.0.0.1:7001"]}
        {["127.0.0.1:7001" := Record_ (UList [EStr "4242"]) {["app@4242.service"]}]}
        {["4242"]}
        [CallService "4242"; CallPort "127.0.0.1" "7001"]
        [LogResolving "127.0.0.1:7001"].

Definition after_7002 : state :=
  State []
        {["127.0.0.1:7001"; "127.0.0.1:7002"]}
        (<["127.0.0.1:7002" := Record_ (UList [EStr "4242"]) ∅]>
           {["127.0.0.1:7001" := Record_ (UList [EStr "4242"]) {["app@4242.service"]}]})
        {["4242"]}
        [CallPort "127.0.0.1" "7002"; CallService "4242"; CallPort "127.0.0.1" "7001"]
        [LogResolving "127.0.0.1:7002"; LogResolving "127.0.0.1:7001"].

(** [lsof] that prints nothing but a newline. *)
Definition silent (history : list call) (argv : list string) : string + string :=
  inl Script.nl.

End Script2.

(** What holds of every target the Nginx reader collects. *)
Definition nginx_ok (acc : gset string * gset string) : Prop :=
  forall t, t ∈ acc.1 ->
    PyStr.startswith t "http" = true /\ last_char t <> Some ";"%char.

(** What the Apache reader keeps true of its variables: every key of
    [infos] is the first component of a collected target and refers to an
    object of the heap, and the [proxypass] of every object is a collected
    target. *)
Definition apache_ok (st : apache) : Prop :=
  (forall k id, a_infos st !! k = Some id ->
     (exists b, (k, b) ∈ a_targets st) /\ is_Some (a_heap st !! id))
  /\ (forall id i t, a_heap st !! id = Some i -> proxypass i = Some t ->
        t ∈ a_targets st).

(** What holds while the file whose [_info] is at [cur] is read, [st0]
    being the variables before the file. *)
Definition apache_reading (cur : nat) (st0 st : apache) : Prop :=
  apache_ok st
  /\ length (a_heap st) = S cur
  /\ (forall j, j < cur -> a_heap st !! j = a_heap st0 !! j)
  /\ (forall k id, a_infos st !! k = Some id -> a_infos st0 !! k = Some id \/ id = cur)
  /\ a_targets st0 ⊆ a_targets st.

(** Scripted configuration files for the worked examples. *)
Module Script3.

Definition quoted (s : string) : string :=
  String PyStr.dquote (s +:+ String PyStr.dquote EmptyString).

Definition nginx_conf : list string :=
  ["server {";
   "    server_name example.com www.example.com;";
   "    location / {";
   "        proxy_pass http://127.0.0.1:8080;";
   "    }";
   "}"].

(** Two virtual hosts in one file. *)
Definition apache_conf : list string :=
  ["<VirtualHost *:80>";
   "  ServerName a.example";
   "  ServerAlias www.a.example";
   "  ProxyPass " +:+ quoted "/" +:+ " " +:+ quoted "http://127.0.0.1:8080/";
   "</VirtualHost>";
   "<VirtualHost *:80>";
   "  ServerName b.example";
   "  ProxyPass " +:+ quoted "/" +:+ " " +:+ quoted "unix:/run/b.sock|http://127.0.0.1/";
   "</VirtualHost>"].

(** Directives outside any virtual host. *)
Definition global_conf : list string :=
  ["ServerName host.example";
   "ProxyPass " +:+ quoted "/" +:+ " " +:+ quoted "http://127.0.0.1:8080/"].

Definition sites_enabled (config_dir : string) : bool :=
  PyStr2.endswith config_dir "sites-enabled".

Definition one_file (config_dir : string) : exn + list string := inr ["site.conf"].

Definition nginx_disk (path : string) : exn + list string := inr nginx_conf.
Definition apache_disk (path : string) : exn + list string := inr apache_conf.
Definition locked_disk (path : string) : exn + list string :=
  inl (OSError "[Errno 13] Permission denied").

Definition apache_result : apache :=
  Apache {[(Some "http://127.0.0.1:8080/", None);
           (Some "unix:/run/b.sock", Some "http://127.0.0.1/")]}
         {["a.example"; "www.a.example"; "b.example"]}
         (<[Some "unix:/run/b.sock" := 0]> {[Some "http://127.0.0.1:8080/" := 0]})
         [Info (Some (Some "unix:/run/b.sock", Some "http://127.0.0.1/"))
               (Some "b.example") (Some ["www.a.example"])].

Definition status_text : string :=
  "* nginx.service - A high performance web server" +:+ Script.nl
  +:+ "     Loaded: loaded (/lib/systemd/system/nginx.service; enabled)" +:+ Script.nl
  +:+ "     Active: active (running) since Mon" +:+ Script.nl.

End Script3.

(** ** Two proxies that forward to each other *)



(** ** Probe results and the records made of them *)

(** A host where [lsof], asked about port 7001, prints a complaint with the
    word [name] in it where a process identifier is expected, and reports
    process 4242 on any other port; the rest is [Script.host]. *)
Definition noisy_host (history : list call) (argv : list string) : string + string :=
  match argv with
  | [_; _; _; _; address] =>
      if String.eqb address "@127.0.0.1:7001"
      then inl ("lsof: no user name for uid 0" +:+ Script.nl)
      else inl ("4242" +:+ Script.nl)
  | _ => Script.host history argv
  end.

(** [set.pop()] that takes the second element when there is one. *)
Definition newest (st : state) : nat := 1.

(** What makes a stored record complete.  [probed] are the calls made when
    the lookups of its turn began (the probe call on top of the earlier
    ones), [final] the calls of the whole run, latest first.  A record with
    a value that is no list has no service name.  For a list: every
    non-empty process identifier in it has been looked up in the run; every
    service name of the record is the answer [get_systemctl_service] gave
    in this turn for an identifier of the list; and every non-empty
    identifier of the list that had not been looked up before this turn was
    looked up in it, the answer being among the record's service names. *)
Definition complete_record
    (get_systemctl_service : list call -> string -> string)
    (final probed : list call) (r : record) : Prop :=
  match usage_info r with
  | UStr _ => systemctl_service r = ∅
  | UList l =>
      (forall pid, EStr pid ∈ l -> pid <> EmptyString -> pid ∈ service_pids final)
      /\ (forall s, s ∈ systemctl_service r ->
            exists pid h,
              EStr pid ∈ l /\ s = get_systemctl_service h pid
              /\ probed `suffix_of` h /\ (CallService pid :: h) `suffix_of` final)
      /\ (forall pid, EStr pid ∈ l -> pid <> EmptyString -> pid ∉ service_pids probed ->
            exists h,
              probed `suffix_of` h /\ (CallService pid :: h) `suffix_of` final
              /\ get_systemctl_service h pid ∈ systemctl_service r)
  end.

(** The record [r] under [key] comes from a turn of the run: some element
    of the frontier has this key, its address was probed after the calls
    [history], [usage_info] is what that probe returned, and the record is
    complete. *)
Definition recorded
    (check_port_usage : list call -> string -> string -> usage)
    (check_unix_socket_usage : list call -> string -> usage)
    (get_systemctl_service : list call -> string -> string)
    (frontier : list target) (final : list call) (key : string) (r : record) : Prop :=
  exists t addr history,
    t ∈ frontier
    /\ key_of t = Some key
    /\ address_of t = Some addr
    /\ (call_of addr :: history) `suffix_of` final
    /\ usage_info r = probe check_port_usage check_unix_socket_usage history addr
    /\ complete_record get_systemctl_service final (call_of addr :: history) r.

(** * Theorems *)

(** ** Strings *)

Lemma startswith_cons (s p : string) (c d : ascii) :
  PyStr.startswith (String c s) (String d p)
  = if Ascii.eqb d c then PyStr.startswith s p else false.
Proof. reflexivity. Qed.

Lemma startswith_nil (s : string) : PyStr.startswith s EmptyString = true.
Proof. destruct s; reflexivity. Qed.

Lemma split_nonempty (sep : ascii) (s : string) : PyStr.split sep s <> [].
Proof.
  destruct s as [|c s]; simpl; [discriminate|].
  destruct (Ascii.eqb c sep); [discriminate|].
  destruct (PyStr.split sep s); discriminate.
Qed.

Lemma lstrip_by_head (f : ascii -> bool) (s : string) :
  match PyStr.lstrip_by f s with
  | EmptyString => True
  | String c _ => f c = false
  end.
Proof.
  induction s as [|c s IH]; simpl; [exact I|].
  destruct (f c) eqn:E; [exact IH | exact E].
Qed.

Lemma rstrip_by_head (f : ascii -> bool) (s : string) :
  match s, PyStr.rstrip_by f s with
  | String c _, String c' _ => c' = c
  | _, _ => True
  end.
Proof.
  destruct s as [|c s]; simpl; [exact I|].
  destruct (PyStr.is_empty (PyStr.rstrip_by f s) && f c); [exact I | reflexivity].
Qed.

(** A stripped string does not begin with a stripped character. *)
Lemma strip_by_head (f : ascii -> bool) (s : string) :
  match PyStr.strip_by f s with
  | EmptyString => True
  | String c _ => f c = false
  end.
Proof.
  unfold PyStr.strip_by.
  pose proof (lstrip_by_head f s) as Hl.
  pose proof (rstrip_by_head f (PyStr.lstrip_by f s)) as Hr.
  destruct (PyStr.lstrip_by f s) as [|c l]; simpl in *; [exact I|].
  destruct (PyStr.is_empty (PyStr.rstrip_by f l) && f c); [exact I | exact Hl].
Qed.

Lemma rstrip_by_last (f : ascii -> bool) (s : string) :
  match last_char (PyStr.rstrip_by f s) with
  | None => True
  | Some c => f c = false
  end.
Proof.
  induction s as [|c s IH]; simpl; [exact I|].
  destruct (PyStr.rstrip_by f s) as [|d r] eqn:E; simpl in *.
  - destruct (f c) eqn:Ef; simpl; [exact I | exact Ef].
  - exact IH.
Qed.

(** A stripped string does not end with a stripped character. *)
Lemma strip_by_last (f : ascii -> bool) (s : string) :
  match last_char (PyStr.strip_by f s) with
  | None => True
  | Some c => f c = false
  end.
Proof. apply rstrip_by_last. Qed.

(** ** The address classifier *)

Lemma proxypass_part_None (part : string) :
  proxypass_part part = None <-> qualifies part = false.
Proof.
  unfold proxypass_part, qualifies, quoted_target.
  destruct (PyStr.contains "|" part); simpl; [split; discriminate|].
  destruct (PyStr.startswith part (String PyStr.dquote "http")); simpl;
    [split; discriminate|].
  destruct (PyStr.startswith part (String PyStr.dquote "unix:")); simpl;
    split; (discriminate || reflexivity).
Qed.

Lemma proxypass_parts_scan (parts : list string) :
  (Forall (fun part => qualifies part = false) parts
   /\ proxypass_parts parts = (None, None))
  \/ (exists pre part post r,
        parts = (pre ++ part :: post)%list
        /\ Forall (fun x => qualifies x = false) pre
        /\ proxypass_part part = Some r
        /\ proxypass_parts parts = r).
Proof.
  induction parts as [|part parts IH]; simpl.
  - left. split; [constructor | reflexivity].
  - destruct (proxypass_part part) as [r|] eqn:E.
    + right. exists [], part, parts, r. repeat split; [constructor | exact E].
    + apply proxypass_part_None in E.
      destruct IH as [[Hall Hres] | (pre & p & post & r & Hparts & Hpre & Hp & Hres)].
      * left. split; [constructor; assumption | exact Hres].
      * right. exists (part :: pre), p, post, r.
        repeat split; [by rewrite Hparts | constructor; assumption | exact Hp | exact Hres].
Qed.

(** C8, as the specification words it, fails: a value that begins with the
    http scheme but carries no leading double quote, as in the line
    [ProxyPass / http://127.0.0.1:8080/], is not taken as the primary. *)
Lemma proxypass_target_unquoted_http :
  proxypass_target "ProxyPass / http://127.0.0.1:8080/" = (None, None)
  /\ Spec.classifier "ProxyPass / http://127.0.0.1:8080/"
     = (Some "http://127.0.0.1:8080/", None)
  /\ proxypass_target "ProxyPass / http://127.0.0.1:8080/"
     <> Spec.classifier "ProxyPass / http://127.0.0.1:8080/".
Proof. vm_compute. repeat split; discriminate. Qed.

(** C8, amended: [proxypass_target] is a total function of its line.  It
    scans the whitespace-separated parts in order and the first part that
    contains [|] or begins with a double quote followed by [http] or [unix:]
    decides: with a [|] the result is the text before the first [|] and the
    text between the first and the second [|], each stripped of double quotes
    at both ends; otherwise it is the part stripped of double quotes, with no
    backup.  When no part qualifies (an unquoted [http] or [unix:] value
    included) the result is [(None, None)].  A primary or backup it returns
    neither begins nor ends with a double quote. *)
Theorem proxypass_target_classifies (line : string) :
  ((Forall (fun part => qualifies part = false) (PyStr.split_ws line)
    /\ proxypass_target line = (None, None))
   \/ (exists pre part post,
         PyStr.split_ws line = (pre ++ part :: post)%list
         /\ Forall (fun x => qualifies x = false) pre
         /\ ((PyStr.contains "|" part = true
              /\ proxypass_target line
                 = (Some (PyStr.strip_char PyStr.dquote (nth 0 (PyStr.split "|" part) EmptyString)),
                    Some (PyStr.strip_char PyStr.dquote (nth 1 (PyStr.split "|" part) EmptyString))))
             \/ (PyStr.contains "|" part = false
                 /\ quoted_target part = true
                 /\ proxypass_target line
                    = (Some (PyStr.strip_char PyStr.dquote part), None)))))
  /\ (forall v, PyStr.contains "|" v = false ->
                PyStr.startswith v (String PyStr.dquote EmptyString) = false ->
                qualifies v = false)
  /\ (forall s, fst (proxypass_target line) = Some s \/ snd (proxypass_target line) = Some s ->
                PyStr.startswith s (String PyStr.dquote EmptyString) = false
                /\ last_char s <> Some PyStr.dquote).
Proof.
  assert (Hstrip : forall s, PyStr.startswith (PyStr.strip_char PyStr.dquote s)
                               (String PyStr.dquote EmptyString) = false
                             /\ last_char (PyStr.strip_char PyStr.dquote s) <> Some PyStr.dquote).
  { intros s. unfold PyStr.strip_char.
    pose proof (strip_by_head (Ascii.eqb PyStr.dquote) s) as Hh.
    pose proof (strip_by_last (Ascii.eqb PyStr.dquote) s) as Hl.
    split.
    - destruct (PyStr.strip_by _ s) as [|c r]; [reflexivity|].
      rewrite startswith_cons. simpl in Hh. rewrite Hh. reflexivity.
    - destruct (last_char (PyStr.strip_by _ s)) as [c|]; [|discriminate].
      intros [= ->]. rewrite Ascii.eqb_refl in Hl. discriminate. }
  assert (Hscan := proxypass_parts_scan (PyStr.split_ws line)).
  fold (proxypass_target line) in Hscan.
  split; [|split].
  - destruct Hscan as [H | (pre & part & post & r & Hparts & Hpre & Hp & Hres)];
      [left; exact H | right].
    exists pre, part, post. split; [exact Hparts|]. split; [exact Hpre|].
    unfold proxypass_part in Hp. unfold quoted_target.
    destruct (PyStr.contains "|" part).
    + left. split; [reflexivity|]. injection Hp as <-. exact Hres.
    + right. split; [reflexivity|].
      destruct (PyStr.startswith part (String PyStr.dquote "http")); simpl.
      * split; [reflexivity|]. injection Hp as <-. exact Hres.
      * destruct (PyStr.startswith part (String PyStr.dquote "unix:"));
          [|discriminate].
        split; [reflexivity|]. injection Hp as <-. exact Hres.
  - intros v Hbar Hq. unfold qualifies, quoted_target. rewrite Hbar. simpl.
    destruct v as [|c v]; [reflexivity|].
    rewrite !startswith_cons. rewrite startswith_cons, startswith_nil in Hq.
    destruct (Ascii.eqb PyStr.dquote c); [discriminate | reflexivity].
  - intros s Hs.
    destruct Hscan as [[_ Hres] | (pre & part & post & r & _ & _ & Hp & Hres)].
    + rewrite Hres in Hs. destruct Hs; discriminate.
    + rewrite Hres in Hs. unfold proxypass_part in Hp.
      destruct (PyStr.contains "|" part).
      { injection Hp as <-. simpl in Hs. destruct Hs as [[= <-] | [= <-]]; apply Hstrip. }
      destruct (PyStr.startswith part (String PyStr.dquote "http")).
      { injection Hp as <-. simpl in Hs. destruct Hs as [[= <-] | ?]; [apply Hstrip | discriminate]. }
      destruct (PyStr.startswith part (String PyStr.dquote "unix:")); [|discriminate].
      injection Hp as <-. simpl in Hs. destruct Hs as [[= <-] | ?]; [apply Hstrip | discriminate].
Qed.

(** ** The service identifier *)

(** Inside the [try] block only two exceptions can arise: the failure of
    [subprocess.run] and the [IndexError] of the parser. *)
Lemma parse_systemctl_service_status_raises (status : string) (e : exn) :
  OS.parse_systemctl_service_status status = inl e -> e = IndexError.
Proof.
  unfold OS.parse_systemctl_service_status, OS.index.
  destruct (PyStr.split "010" status !! 0) as [line0|]; [|congruence].
  destruct (PyStr.split " " line0 !! 1) as [name|]; [|congruence].
  destruct (PyStr.split "010" status !! 2) as [line2|]; [|discriminate].
  destruct (PyStr.contains ":" line2); [|discriminate].
  destruct (PyStr.split ":" line2 !! 1); [discriminate | congruence].
Qed.

Lemma parse_systemctl_service_status_name (status : string) :
  match PyStr.split " " (hd EmptyString (PyStr.split "010" status)) with
  | _ :: name :: _ =>
      exists st, OS.parse_systemctl_service_status status = inr (name, st)
  | _ => OS.parse_systemctl_service_status status = inl IndexError
  end.
Proof.
  unfold OS.parse_systemctl_service_status, OS.index.
  pose proof (split_nonempty "010" status) as Hne.
  destruct (PyStr.split "010" status) as [|line0 lines]; [congruence|]. simpl.
  destruct (PyStr.split " " line0) as [|tok0 [|name toks]]; simpl; try reflexivity.
  destruct lines as [|line1 [|line2 lines]]; simpl; try (eexists; reflexivity).
  destruct (PyStr.contains ":" line2) eqn:Hc; [|eexists; reflexivity].
  destruct (PyStr.split ":" line2) as [|f0 [|f1 fs]] eqn:Hs; simpl;
    try (eexists; reflexivity).
  - exfalso. exact (split_nonempty _ _ Hs).
  - exfalso. clear -Hc Hs. revert f0 Hs Hc.
    induction line2 as [|c l IH]; intros f0 Hs Hc; [discriminate|].
    simpl in Hs. cbn [PyStr.contains] in Hc. rewrite startswith_cons in Hc.
    rewrite startswith_nil in Hc.
    destruct (Ascii.eqb c ":") eqn:Ec.
    + injection Hs as _ Hs. exact (split_nonempty _ _ Hs).
    + rewrite Ascii.eqb_sym, Ec in Hc. simpl in Hc.
      destruct (PyStr.split ":" l) as [|h [|h' t]] eqn:Hl; try discriminate.
      * exact (split_nonempty _ _ Hl).
      * eapply IH; [reflexivity | exact Hc].
Qed.

(** C9: for every process identifier, whatever the service manager answers
    and whatever was called before, [get_systemctl_service] hands back a
    string and lets no exception through.  When [subprocess.run] fails the
    string is the marker [Error finding service: ] followed by the failure's
    text; when the first line of the stripped output has no second
    space-separated field it is the same marker followed by the text of the
    [IndexError]; otherwise it is that second field, the unit name.  The
    marker string is what stands for Unknown. *)
Theorem get_systemctl_service_never_raises
    (subprocess_run : list call -> list string -> string + string)
    (history : list call) (pid : string) :
  match subprocess_run history ["sudo"; "systemctl"; "status"; pid] with
  | inr msg =>
      OS.get_systemctl_service_try subprocess_run history pid = inl (OSError msg)
      /\ OS.get_systemctl_service subprocess_run history pid
         = "Error finding service: " +:+ msg
  | inl stdout =>
      match PyStr.split " " (hd EmptyString (PyStr.split "010" (PyStr.strip stdout))) with
      | _ :: name :: _ =>
          OS.get_systemctl_service subprocess_run history pid = name
      | _ =>
          OS.get_systemctl_service_try subprocess_run history pid = inl IndexError
          /\ OS.get_systemctl_service subprocess_run history pid
             = "Error finding service: list index out of range"
      end
  end.
Proof.
  unfold OS.get_systemctl_service, OS.get_systemctl_service_try, OS.run.
  destruct (subprocess_run history _) as [stdout|msg]; [|split; reflexivity].
  pose proof (parse_systemctl_service_status_name (PyStr.strip stdout)) as Hp.
  destruct (PyStr.split " " (hd EmptyString (PyStr.split "010" (PyStr.strip stdout))))
    as [|tok0 [|name toks]].
  - rewrite Hp. split; reflexivity.
  - rewrite Hp. split; reflexivity.
  - destruct Hp as [st ->]. reflexivity.
Qed.

(** ** The frontier *)

Lemma unpack_long_string (s : string) :
  String.length s <> 2 -> unpack (TStr s) = inl ValueError.
Proof.
  destruct s as [|a [|b [|c s]]]; simpl; intros H; try reflexivity.
  congruence.
Qed.

Lemma length_append (p x : string) :
  String.length (p +:+ x) = String.length p + String.length x.
Proof. induction p as [|c p IH]; simpl; [reflexivity | by rewrite IH]. Qed.

Lemma length_prefixed (p x : string) :
  2 < String.length p -> String.length (p +:+ x) <> 2.
Proof. intros H. rewrite length_append. lia. Qed.

Lemma set_add_elem (t d : target) (l : list target) :
  d ∈ set_add t l <-> d ∈ l \/ d = t.
Proof.
  unfold set_add. destruct (decide (t ∈ l)) as [Hin|Hin].
  - split; [auto | intros [H | ->]; assumption].
  - rewrite elem_of_app, list_elem_of_singleton. reflexivity.
Qed.

Lemma enqueue_elem (prefix : string) (seen : gset string) (news : list string) :
  forall (frontier : list target) (d : target),
    d ∈ enqueue prefix seen frontier news
    <-> d ∈ frontier
        \/ exists x, x ∈ news /\ d = TStr (prefix +:+ x) /\ prefix +:+ x ∉ seen.
Proof.
  unfold enqueue.
  induction news as [|x news IH]; intros frontier d; simpl.
  - split; [auto | intros [H | (x & Hx & _)]; [exact H | by apply elem_of_nil in Hx]].
  - rewrite IH. destruct (decide (prefix +:+ x ∈ seen)) as [Hs|Hs].
    + split.
      * intros [H | (y & Hy & Hd & Hn)]; [auto|].
        right. exists y. split; [by apply elem_of_cons; right | auto].
      * intros [H | (y & Hy & Hd & Hn)]; [auto|].
        apply elem_of_cons in Hy as [-> | Hy]; [contradiction|].
        right. exists y. auto.
    + rewrite set_add_elem. split.
      * intros [[H | ->] | (y & Hy & Hd & Hn)]; [auto | |].
        -- right. exists x. split; [by apply elem_of_cons; left | auto].
        -- right. exists y. split; [by apply elem_of_cons; right | auto].
      * intros [H | (y & Hy & Hd & Hn)]; [auto|].
        apply elem_of_cons in Hy as [-> | Hy]; [auto|].
        right. exists y. auto.
Qed.

(** What the discovery step leaves in the frontier: what was there, and
    strings built from one of the two prefixes. *)
Lemma discover_elem (l : list entry) (seen : gset string) (frontier frontier' : list target) :
  discover l seen frontier = inr frontier' ->
  forall d, d ∈ frontier' ->
    d ∈ frontier
    \/ exists p x, (p = "127.0.0.1:" \/ p = "unix:") /\ d = TStr (p +:+ x) /\ p +:+ x ∉ seen.
Proof.
  unfold discover. intros H d Hd.
  destruct (new_ports l) as [e|ports]; [discriminate|].
  destruct (new_sockets l) as [e|sockets]; [discriminate|].
  injection H as <-.
  apply enqueue_elem in Hd as [Hd | (x & _ & -> & Hn)].
  - apply enqueue_elem in Hd as [Hd | (x & _ & -> & Hn)]; [auto|].
    right. exists "127.0.0.1:", x. auto.
  - right. exists "unix:", x. auto.
Qed.

Lemma discover_keeps (l : list entry) (seen : gset string) (frontier frontier' : list target) :
  discover l seen frontier = inr frontier' ->
  forall d, d ∈ frontier -> d ∈ frontier'.
Proof.
  unfold discover. intros H d Hd.
  destruct (new_ports l) as [e|ports]; [discriminate|].
  destruct (new_sockets l) as [e|sockets]; [discriminate|].
  injection H as <-. apply enqueue_elem. left. apply enqueue_elem. auto.
Qed.

Lemma discovered_not_unpackable (d : target) :
  discovered d -> unpackable d = false /\ primary_of d = None.
Proof.
  intros (p & x & Hp & ->). unfold unpackable, primary_of.
  rewrite unpack_long_string; [split; reflexivity|].
  apply length_prefixed. destruct Hp as [-> | ->]; simpl; lia.
Qed.

Lemma enqueue_app (p : string) (seen : gset string) (news : list string) :
  forall frontier,
    exists extra,
      enqueue p seen frontier news = (frontier ++ extra)%list
      /\ Forall (fun d => exists x, d = TStr (p +:+ x)) extra.
Proof.
  unfold enqueue. induction news as [|x news IH]; intros frontier; simpl.
  - exists []. split; [by rewrite app_nil_r | constructor].
  - destruct (decide (p +:+ x ∈ seen)); [apply IH|].
    unfold set_add. destruct (decide (TStr (p +:+ x) ∈ frontier)); [apply IH|].
    destruct (IH (frontier ++ [TStr (p +:+ x)])%list) as (extra & Heq & Hall).
    exists (TStr (p +:+ x) :: extra).
    split; [etransitivity; [exact Heq | by rewrite <- app_assoc]|].
    constructor; [by exists x | exact Hall].
Qed.

(** The discovery step only appends, and only discovered strings. *)
Lemma discover_app (l : list entry) (seen : gset string) (frontier frontier' : list target) :
  discover l seen frontier = inr frontier' ->
  exists extra, frontier' = (frontier ++ extra)%list /\ Forall discovered extra.
Proof.
  unfold discover. intros H.
  destruct (new_ports l) as [e|ports]; [discriminate|].
  destruct (new_sockets l) as [e|sockets]; [discriminate|].
  injection H as <-.
  destruct (enqueue_app "127.0.0.1:" seen ports frontier) as (ex1 & -> & H1).
  destruct (enqueue_app "unix:" seen sockets (frontier ++ ex1)%list) as (ex2 & -> & H2).
  exists (ex1 ++ ex2)%list. split; [by rewrite app_assoc|].
  apply Forall_app. split.
  - eapply Forall_impl; [exact H1|]. intros d [x ->]. exists "127.0.0.1:", x. auto.
  - eapply Forall_impl; [exact H2|]. intros d [x ->]. exists "unix:", x. auto.
Qed.

Lemma pending_app (l1 l2 : list target) :
  pending (l1 ++ l2) = pending l1 + pending l2.
Proof. induction l1 as [|t l1 IH]; simpl; [reflexivity | rewrite IH; lia]. Qed.

Lemma pending_perm (l1 l2 : list target) : l1 ≡ₚ l2 -> pending l1 = pending l2.
Proof. induction 1; simpl; lia. Qed.

Lemma pending_discovered (extra : list target) :
  Forall discovered extra -> pending extra = 0.
Proof.
  induction 1 as [|d extra Hd _ IH]; simpl; [reflexivity|].
  destruct (discovered_not_unpackable d Hd) as [-> _]. exact IH.
Qed.

Lemma primaries_discovered (extra : list target) :
  Forall discovered extra -> omap primary_of extra = [].
Proof.
  induction 1 as [|d extra Hd _ IH]; simpl; [reflexivity|].
  destruct (discovered_not_unpackable d Hd) as [_ ->]. exact IH.
Qed.

(** ** One turn of the loop *)

Section EngineFacts.

Variable check_port_usage : list call -> string -> string -> usage.
Variable check_unix_socket_usage : list call -> string -> usage.
Variable get_systemctl_service : list call -> string -> string.
Variable pop_index : state -> nat.

Local Abbreviation body :=
  (loop_body check_port_usage check_unix_socket_usage get_systemctl_service).
Local Abbreviation lookups := (lookup_services get_systemctl_service).
Local Abbreviation probe_at := (probe check_port_usage check_unix_socket_usage).
Local Abbreviation loop :=
  (resolve_loop check_port_usage check_unix_socket_usage get_systemctl_service pop_index).
Local Abbreviation pop := (set_pop pop_index).

(** Everything a turn that does not raise has done. *)
Lemma body_Returned (st st' : state) (popped : target) (rest : list target) :
  body st popped rest = Returned st' ->
  exists target failover key addr services,
    unpack popped = inr (Some target, failover)
    /\ locate target = inr (key, addr)
    /\ lookups (probe_at (calls st) addr) (processed_pids st) (call_of addr :: calls st)
       = (services, processed_pids st', calls st')
    /\ visited st' = {[target]} ∪ visited st
    /\ details st' = <[key := Record_ (probe_at (calls st) addr) services]> (details st)
    /\ match probe_at (calls st) addr with
       | UList l => discover l ({[target]} ∪ visited st) rest = inr (targets st')
       | UStr _ => targets st' = rest
       end.
Proof.
  unfold loop_body. intros H.
  destruct (unpack popped) as [e|[[target|] failover]] eqn:Hu; try discriminate.
  destruct (locate target) as [e|[key addr]] eqn:Hloc; [discriminate|].
  destruct (lookups _ _ _) as [[services processed'] made] eqn:Hl.
  exists target, failover, key, addr, services.
  destruct (probe_at (calls st) addr) as [l|msg] eqn:Hp.
  - destruct (discover l _ rest) as [e|frontier] eqn:Hd; [discriminate|].
    injection H as <-. simpl. auto 10.
  - injection H as <-. simpl. auto 10.
Qed.

(** An element that cannot be unpacked stops the run where it is popped. *)
Lemma body_not_unpackable (st : state) (popped : target) (rest : list target) :
  unpackable popped = false ->
  body st popped rest = Raised ValueError (calls st).
Proof.
  unfold unpackable, loop_body.
  destruct popped as [s|p f]; simpl; [|discriminate].
  destruct s as [|a [|b [|c s]]]; simpl; (reflexivity || discriminate).
Qed.

Lemma pop_perm (st : state) (rest : list target) (t : target) :
  pop st = Some (t, rest) -> targets st ≡ₚ t :: rest.
Proof.
  unfold set_pop. cbv zeta. intros H.
  destruct (targets st !! _) as [x|] eqn:Hx; [|discriminate].
  injection H as -> <-.
  rewrite delete_take_drop.
  rewrite <- (take_drop_middle _ _ _ Hx) at 1.
  symmetry. apply Permutation_middle.
Qed.

Lemma pop_None (st : state) : pop st = None -> targets st = [].
Proof.
  unfold set_pop. cbv zeta. destruct (targets st) as [|t l]; [reflexivity|].
  intros H. exfalso.
  destruct (_ !! _) eqn:Hx; [discriminate|].
  apply lookup_ge_None in Hx.
  pose proof (Nat.mod_upper_bound (pop_index st) (length (t :: l))) as Hb.
  simpl in *. lia.
Qed.

Lemma pop_nil (st : state) : targets st = [] -> pop st = None.
Proof. unfold set_pop. by intros ->. Qed.

(** C4: a turn of the loop that returns leaves in the frontier, besides
    what the pop left there, only plain strings that begin with
    [127.0.0.1:] or [unix:]; none of them has length two, and popping one,
    in whatever state, raises [ValueError] at the unpacking before any
    call is made. *)
Theorem discovered_target_raises_ValueError
    (st st' : state) (popped : target) (rest : list target) :
  body st popped rest = Returned st' ->
  Forall (fun d =>
            d ∈ rest
            \/ raises_on_pop check_port_usage check_unix_socket_usage
                 get_systemctl_service d)
         (targets st').
Proof.
  intros H. apply Forall_forall. intros d Hd.
  apply body_Returned in H
    as (target & failover & key & addr & services & _ & _ & _ & _ & _ & Hdisc).
  destruct (probe_at (calls st) addr) as [l|msg]; [|left; by rewrite <- Hdisc].
  destruct (discover_elem _ _ _ _ Hdisc d Hd) as [Hin | (p & x & Hp & -> & _)];
    [left; exact Hin | right].
  exists (p +:+ x).
  assert (Hlen : String.length (p +:+ x) <> 2)
    by (apply length_prefixed; destruct Hp as [-> | ->]; simpl; lia).
  split; [reflexivity|]. split.
  { destruct Hp as [-> | ->]; [left | right]; reflexivity. }
  split; [exact Hlen|]. split; [by apply unpack_long_string|].
  intros st2 rest2. apply body_not_unpackable.
  unfold unpackable. by rewrite unpack_long_string.
Qed.

(** ** The whole loop *)

(** A turn that returns appends discovered strings to what the pop left. *)
Lemma body_frontier (st st' : state) (popped : target) (rest : list target) :
  body st popped rest = Returned st' ->
  exists extra, targets st' = (rest ++ extra)%list /\ Forall discovered extra.
Proof.
  intros H. apply body_Returned in H
    as (target & failover & key & addr & services & _ & _ & _ & _ & _ & Hdisc).
  destruct (probe_at (calls st) addr) as [l|msg].
  - by apply discover_app in Hdisc.
  - exists []. split; [by rewrite app_nil_r | constructor].
Qed.

(** Discovered strings do not count: a turn that returns takes one pending
    element away. *)
Lemma body_pending (st st' : state) (popped : target) (rest : list target) :
  body st popped rest = Returned st' ->
  unpackable popped = true /\ pending (targets st') = pending rest.
Proof.
  intros H. apply body_Returned in H
    as (target & failover & key & addr & services & Hu & _ & _ & _ & _ & Hdisc).
  split; [unfold unpackable; by rewrite Hu|].
  destruct (probe_at (calls st) addr) as [l|msg]; [|by rewrite Hdisc].
  apply discover_app in Hdisc as (extra & -> & Hex).
  rewrite pending_app, (pending_discovered _ Hex). lia.
Qed.

(** The log line [Resolving target] of a turn that returns. *)
Lemma body_resolved (st st' : state) (popped : target) (rest : list target) :
  body st popped rest = Returned st' ->
  exists target,
    primary_of popped = Some target
    /\ resolved (log st') = target :: resolved (log st).
Proof.
  unfold loop_body, primary_of. intros Hb.
  destruct (unpack popped) as [e|[[target|] failover]]; try discriminate.
  destruct (locate target) as [e|[key addr]]; [discriminate|].
  destruct (lookups _ _ _) as [[services processed'] made].
  exists target. split; [reflexivity|].
  destruct (probe_at (calls st) addr) as [l|msg].
  - destruct (discover l _ rest) as [e|frontier]; [discriminate|].
    injection Hb as <-.
    destruct failover as [f|], addr; simpl;
      try destruct (PyStr.truthy target && PyStr.truthy f); reflexivity.
  - injection Hb as <-.
    destruct failover as [f|], addr; simpl;
      try destruct (PyStr.truthy target && PyStr.truthy f); reflexivity.
Qed.

(** The loop never runs out of turns once it is given one more than the
    number of pending elements. *)
Lemma loop_terminates (fuel : nat) :
  forall st, pending (targets st) < fuel -> loop fuel st <> OutOfFuel.
Proof.
  induction fuel as [|fuel IH]; intros st Hlt; [lia|].
  simpl. destruct (pop st) as [[popped rest]|] eqn:Hpop; [|discriminate].
  destruct (body st popped rest) as [st'|e made|] eqn:Hb; [|discriminate|].
  - apply pop_perm, pending_perm in Hpop. simpl in Hpop.
    apply body_pending in Hb as [Hu Hp]. rewrite Hu in Hpop.
    apply IH. lia.
  - exfalso. unfold loop_body in Hb.
    destruct (unpack popped) as [e|[[target|] failover]]; try discriminate.
    destruct (locate target) as [e|[key addr]]; [discriminate|].
    destruct (lookups _ _ _) as [[services processed'] made].
    destruct (probe_at (calls st) addr) as [l|msg]; [|discriminate].
    destruct (discover l _ rest); discriminate.
Qed.

(** More turns than needed change nothing. *)
Lemma loop_more_fuel (fuel : nat) :
  forall st fuel', loop fuel st <> OutOfFuel -> fuel <= fuel' ->
    loop fuel' st = loop fuel st.
Proof.
  induction fuel as [|fuel IH]; intros st fuel' Hne Hle; simpl in *.
  - destruct fuel'; simpl; destruct (pop st) as [[popped rest]|]; congruence.
  - destruct fuel' as [|fuel']; [lia|]. simpl.
    destruct (pop st) as [[popped rest]|]; [|reflexivity].
    destruct (body st popped rest) as [st1|e made|]; [|reflexivity..].
    apply IH; [exact Hne | lia].
Qed.

(** An element that cannot be unpacked stays in the frontier until it is
    popped, so a run that holds one never returns. *)
Lemma loop_stuck (fuel : nat) :
  forall st d, d ∈ targets st -> unpackable d = false ->
    forall st', loop fuel st <> Returned st'.
Proof.
  induction fuel as [|fuel IH]; intros st d Hd Hu st'; simpl.
  - destruct (pop st) as [[popped rest]|] eqn:Hpop; [discriminate|].
    apply pop_None in Hpop. rewrite Hpop in Hd. by apply elem_of_nil in Hd.
  - destruct (pop st) as [[popped rest]|] eqn:Hpop.
    + destruct (body st popped rest) as [st1|e made|] eqn:Hb; [|discriminate..].
      apply pop_perm in Hpop. rewrite Hpop in Hd.
      apply elem_of_cons in Hd as [-> | Hd].
      * apply body_pending in Hb as [Hb _]. congruence.
      * apply body_Returned in Hb
          as (target & failover & key & addr & services & _ & _ & _ & _ & _ & Hdisc).
        apply (IH st1 d); [|exact Hu].
        destruct (probe_at (calls st) addr) as [l|msg]; [|by rewrite Hdisc].
        eapply discover_keeps; eassumption.
    + apply pop_None in Hpop. rewrite Hpop in Hd. by apply elem_of_nil in Hd.
Qed.

(** What a run that returns has visited: the primaries of the elements it
    started from, and those the log reports as resolved. *)
Lemma loop_visited (fuel : nat) :
  forall st st',
    loop fuel st = Returned st' ->
    targets st' = []
    /\ visited st' = visited st ∪ list_to_set (omap primary_of (targets st))
    /\ (visited st = list_to_set (resolved (log st)) ->
        visited st' = list_to_set (resolved (log st'))).
Proof.
  assert (Hstop : forall st st', pop st = None -> Returned st = Returned st' ->
            targets st' = []
            /\ visited st' = visited st ∪ list_to_set (omap primary_of (targets st))
            /\ (visited st = list_to_set (resolved (log st)) ->
                visited st' = list_to_set (resolved (log st')))).
  { intros st st' Hpop [= <-]. apply pop_None in Hpop. rewrite Hpop. simpl.
    split; [reflexivity|]. split; [set_solver | auto]. }
  induction fuel as [|fuel IH]; intros st st'; simpl.
  - destruct (pop st) as [[popped rest]|] eqn:Hpop; [discriminate|].
    by apply Hstop.
  - destruct (pop st) as [[popped rest]|] eqn:Hpop; [|by apply Hstop].
    destruct (body st popped rest) as [st1|e made|] eqn:Hb; [|discriminate..].
    intros Hrun. destruct (IH _ _ Hrun) as (Hnil & Hvis & Hlog).
    split; [exact Hnil|].
    apply pop_perm in Hpop.
    assert (Hprim : omap primary_of (targets st1) = omap primary_of rest
                    /\ exists target, primary_of popped = Some target
                         /\ visited st1 = {[target]} ∪ visited st
                         /\ resolved (log st1) = target :: resolved (log st)).
    { clear Hrun Hnil Hvis Hlog IH.
      destruct (body_resolved _ _ _ _ Hb) as (target & Hprim & Hres).
      apply body_Returned in Hb
        as (target' & failover & key & addr & services & Hu & _ & _ & Hv & _ & Hdisc).
      assert (target' = target) as ->
        by (unfold primary_of in Hprim; rewrite Hu in Hprim; congruence).
      split; [|eauto].
      destruct (probe_at (calls st) addr) as [l|msg]; [|by rewrite Hdisc].
      apply discover_app in Hdisc as (extra & -> & Hex).
      by rewrite omap_app, (primaries_discovered _ Hex), app_nil_r. }
    destruct Hprim as (Hp1 & target & Hp2 & Hv1 & Hl1).
    split.
    + rewrite Hvis, Hp1, Hv1.
      assert (Hset : list_to_set (omap primary_of (targets st))
                     =@{gset string} {[target]} ∪ list_to_set (omap primary_of rest)).
      { apply set_eq. intros x. rewrite elem_of_union, elem_of_singleton.
        rewrite !elem_of_list_to_set, !list_elem_of_omap.
        split.
        - intros (t & Ht & Hx). rewrite Hpop in Ht.
          apply elem_of_cons in Ht as [-> | Ht]; [left; congruence | right; eauto].
        - intros [-> | (t & Ht & Hx)].
          + exists popped. split; [rewrite Hpop; by apply elem_of_cons; left | exact Hp2].
          + exists t. split; [rewrite Hpop; by apply elem_of_cons; right | exact Hx]. }
      rewrite Hset. set_solver.
    + intros Hinit. apply Hlog. rewrite Hv1, Hl1, Hinit. reflexivity.
Qed.

(** The bound on the turns: for every finite frontier, every pop order and
    every behaviour of the probes, the loop ends after at most one turn more
    than there are elements that can be unpacked: it returns or it leaves
    with an exception, and a larger bound gives the same outcome.  When it
    returns, the frontier is empty and [visited] holds exactly the addresses
    the run reported as popped and resolved, which are the primaries of the
    elements it was given.  A run in which an address is discovered never
    returns ([discovery_never_returns] below). *)
Theorem resolve_targets_terminates (fuel : nat) (frontier : list target) :
  pending frontier < fuel ->
  resolve_targets check_port_usage check_unix_socket_usage get_systemctl_service
    pop_index fuel frontier <> OutOfFuel
  /\ (forall fuel', fuel <= fuel' ->
        resolve_targets check_port_usage check_unix_socket_usage get_systemctl_service
          pop_index fuel' frontier
        = resolve_targets check_port_usage check_unix_socket_usage get_systemctl_service
            pop_index fuel frontier)
  /\ forall st,
       resolve_targets check_port_usage check_unix_socket_usage get_systemctl_service
         pop_index fuel frontier = Returned st ->
       targets st = []
       /\ visited st = list_to_set (resolved (log st))
       /\ visited st = list_to_set (omap primary_of frontier).
Proof.
  intros Hlt. unfold resolve_targets. split; [by apply loop_terminates|].
  split; [intros fuel' Hle; apply loop_more_fuel; [by apply loop_terminates | exact Hle]|].
  intros st Hrun. apply loop_visited in Hrun as (Hnil & Hvis & Hlog).
  split; [exact Hnil|]. split; [by apply Hlog|].
  rewrite Hvis. simpl. set_solver.
Qed.


(** Once a turn has put a discovered address into the frontier, the run
    cannot return a result map any more. *)
Lemma discovery_never_returns (st st' : state) (popped d : target) (rest : list target) :
  body st popped rest = Returned st' ->
  d ∈ targets st' -> d ∉ rest ->
  forall fuel st_end, loop fuel st' <> Returned st_end.
Proof.
  intros Hb Hd Hrest fuel st_end.
  apply body_frontier in Hb as (extra & Heq & Hex).
  rewrite Heq in Hd. apply elem_of_app in Hd as [Hd | Hd]; [contradiction|].
  rewrite Forall_forall in Hex.
  destruct (discovered_not_unpackable d (Hex d Hd)) as [Hu _].
  apply (loop_stuck fuel st' d); [|exact Hu].
  rewrite Heq. apply elem_of_app. by right.
Qed.

(** ** Service lookups *)

(** The [for entry in usage_info] loop keeps the set of cached identifiers
    equal to the identifiers that were looked up, each looked up once. *)
Lemma lookups_cached (u : usage) (processed processed' services : gset string)
    (made made' : list call) :
  lookups u processed made = (services, processed', made') ->
  processed = list_to_set (service_pids made) ->
  NoDup (service_pids made) ->
  processed' = list_to_set (service_pids made') /\ NoDup (service_pids made').
Proof.
  unfold lookup_services. destruct u as [l|msg]; [|intros [= _ <- <-]; auto].
  generalize (∅ : gset string) as acc.
  revert processed made.
  induction l as [|e l IH]; intros processed made acc; simpl.
  - intros [= _ <- <-]. auto.
  - destruct e as [pid|d]; [|apply IH].
    destruct (PyStr.truthy pid && bool_decide (pid ∉ processed)) eqn:Hc; [|apply IH].
    intros Hf Hp Hn. eapply IH; [exact Hf | |]; simpl.
    + rewrite Hp. reflexivity.
    + apply andb_true_iff in Hc as [_ Hc]. apply bool_decide_eq_true in Hc.
      constructor; [|exact Hn]. rewrite Hp in Hc. by rewrite elem_of_list_to_set in Hc.
Qed.

Lemma body_cached (st : state) (popped : target) (rest : list target) :
  processed_pids st = list_to_set (service_pids (calls st)) ->
  NoDup (service_pids (calls st)) ->
  NoDup (service_pids (calls_of (body st popped rest)))
  /\ match body st popped rest with
     | Returned st' => processed_pids st' = list_to_set (service_pids (calls st'))
     | _ => True
     end.
Proof.
  intros Hp Hn. unfold loop_body.
  destruct (unpack popped) as [e|[[target|] failover]]; try by auto.
  destruct (locate target) as [e|[key addr]]; [by auto|].
  destruct (lookups _ _ _) as [[services processed'] made] eqn:Hl.
  apply lookups_cached in Hl as [Hp' Hn'];
    [|by destruct addr | by destruct addr].
  destruct (probe_at (calls st) addr) as [l|msg]; [|by auto].
  destruct (discover l _ rest); by auto.
Qed.

Lemma loop_cached (fuel : nat) :
  forall st,
    processed_pids st = list_to_set (service_pids (calls st)) ->
    NoDup (service_pids (calls st)) ->
    NoDup (service_pids (calls_of (loop fuel st)))
    /\ match loop fuel st with
       | Returned st' => processed_pids st' = list_to_set (service_pids (calls st'))
       | _ => True
       end.
Proof.
  induction fuel as [|fuel IH]; intros st Hp Hn; simpl.
  - destruct (pop st) as [[popped rest]|]; simpl; [split; [constructor | exact I] | auto].
  - destruct (pop st) as [[popped rest]|]; [|by auto].
    pose proof (body_cached st popped rest Hp Hn) as [Hn' Hp'].
    destruct (body st popped rest) as [st1|e made|]; [by apply IH | by auto..].
Qed.

(** C6: in one run, whatever the probes report and however often a process
    identifier comes back, [get_systemctl_service] is called at most once
    for it; this holds for the calls made up to an exception as well.  When
    the run returns, the cached identifiers are exactly those that were
    looked up, whatever string the lookup gave. *)
Theorem service_lookup_at_most_once (fuel : nat) (frontier : list target) :
  NoDup (service_pids (calls_of
    (resolve_targets check_port_usage check_unix_socket_usage get_systemctl_service
       pop_index fuel frontier)))
  /\ match resolve_targets check_port_usage check_unix_socket_usage
             get_systemctl_service pop_index fuel frontier with
     | Returned st => processed_pids st = list_to_set (service_pids (calls st))
     | _ => True
     end.
Proof.
  unfold resolve_targets. apply loop_cached; simpl; [reflexivity | constructor].
Qed.

(** ** Failover pairs *)

Lemma lookups_calls (u : usage) (processed : gset string) (made : list call) :
  exists pids,
    (lookups u processed made).2 = ((CallService <$> pids) ++ made)%list.
Proof.
  unfold lookup_services. destruct u as [l|msg]; [|by exists []].
  generalize (∅ : gset string) as acc. revert processed made.
  induction l as [|e l IH]; intros processed made acc; simpl; [by exists []|].
  destruct e as [pid|d]; [|apply IH].
  destruct (PyStr.truthy pid && bool_decide (pid ∉ processed)); [|apply IH].
  destruct (IH ({[pid]} ∪ processed) (CallService pid :: made)
              ({[get_systemctl_service made pid]} ∪ acc)) as [pids ->].
  exists (pids ++ [pid])%list. rewrite fmap_app, <- app_assoc. reflexivity.
Qed.

(** C3: for every state of the run and every failover pair popped in it, the
    turn does exactly what it does for the primary alone: the same calls,
    the same [visited], [details], [processed_pids] and frontier, the same
    exception if any; only the log differs.  When it returns, [visited] has
    gained the primary, [details] the primary's key, the single probe call
    made is the one for the primary's address, followed by service lookups,
    and the frontier has gained discovered strings only. *)
Theorem failover_backup_ignored (st : state) (primary backup : string) (rest : list target) :
  erase_log (body st (TPair (Some primary) (Some backup)) rest)
  = erase_log (body st (TPair (Some primary) None) rest)
  /\ match body st (TPair (Some primary) (Some backup)) rest with
     | Returned st' =>
         visited st' = {[primary]} ∪ visited st
         /\ exists key addr pids extra,
              locate primary = inr (key, addr)
              /\ dom (details st') = {[key]} ∪ dom (details st)
              /\ calls st' = ((CallService <$> pids) ++ call_of addr :: calls st)%list
              /\ targets st' = (rest ++ extra)%list
              /\ Forall discovered extra
     | _ => True
     end.
Proof.
  split.
  - unfold loop_body. simpl.
    destruct (locate primary) as [e|[key addr]]; [reflexivity|].
    destruct (lookups _ _ _) as [[services processed'] made].
    destruct (probe_at (calls st) addr) as [l|msg]; [|reflexivity].
    destruct (discover l _ rest); reflexivity.
  - destruct (body st _ rest) as [st'| |] eqn:Hb; [|exact I..].
    destruct (body_frontier _ _ _ _ Hb) as (extra & Hfr & Hex).
    apply body_Returned in Hb
      as (target & failover & key & addr & services & Hu & Hloc & Hl & Hv & Hd & _).
    injection Hu as <- <-.
    split; [exact Hv|]. 
    destruct (lookups_calls (probe_at (calls st) addr) (processed_pids st)
                (call_of addr :: calls st)) as [pids Hpids].
    rewrite Hl in Hpids. simpl in Hpids.
    exists key, addr, pids, extra. rewrite Hd, dom_insert_L. auto.
Qed.

(** ** Overwriting a record *)

(** [details] is only written: a turn does the same whatever it holds. *)
Lemma body_details (st st' : state) (popped : target) (rest : list target)
    (earlier : gmap string record) :
  body st popped rest = Returned st' ->
  exists key r,
    details st' = <[key := r]> (details st)
    /\ body (with_details earlier st) popped rest
       = Returned (with_details (<[key := r]> earlier) st').
Proof.
  unfold loop_body, with_details. simpl. intros Hb.
  destruct (unpack popped) as [e|[[target|] failover]]; try discriminate.
  destruct (locate target) as [e|[key addr]]; [discriminate|].
  destruct (lookups _ _ _) as [[services processed'] made].
  exists key, (Record_ (probe_at (calls st) addr) services).
  destruct (probe_at (calls st) addr) as [l|msg].
  - destruct (discover l _ rest); [discriminate|]. by injection Hb as <-.
  - by injection Hb as <-.
Qed.

(** C5: when a turn on [popped] returns, the record found under its key
    afterwards is the one built from this turn's own probe and service
    lookups, whether or not an earlier element had left a record under the
    same key; the other keys keep their records; and the turn returns in
    the same way, without an exception, whatever the dict held before. *)
Theorem overwrite_last_write_wins
    (st st' : state) (popped : target) (rest : list target) :
  body st popped rest = Returned st' ->
  overwrites check_port_usage check_unix_socket_usage get_systemctl_service
    st st' popped rest.
Proof.
  intros Hb. unfold overwrites.
  pose proof (body_Returned _ _ _ _ Hb)
    as (target & failover & key & addr & services & Hu & Hloc & Hl & _ & Hd & _).
  exists target, failover, key, addr. cbv zeta. rewrite Hl. simpl.
  split; [exact Hu|]. split; [exact Hloc|].
  split; [by rewrite Hd, lookup_insert_eq|].
  split; [intros k Hk; by rewrite Hd, lookup_insert_ne|].
  intros earlier.
  destruct (body_details _ _ _ _ earlier Hb) as (key' & r & Hd' & Hb').
  rewrite Hb'. f_equal. f_equal.
  clear -Hb Hu Hloc Hl Hb'.
  unfold loop_body, with_details in Hb'. simpl in Hb'.
  rewrite Hu, Hloc, Hl in Hb'.
  destruct (probe_at (calls st) addr) as [l|msg].
  - destruct (discover l _ rest); [discriminate|]. by injection Hb'.
  - by injection Hb'.
Qed.

(** ** Probe errors *)

Lemma quiet_comprehension (prefix : string) (pick : string -> string) (l : list entry) :
  (prefix = "127.0.0.1:" \/ prefix = "unix:") ->
  forallb quiet_entry l = true ->
  comprehension (named prefix pick) l = inr [].
Proof.
  intros Hp. induction l as [|e l IH]; simpl; [reflexivity|].
  intros [He Hl]%andb_true_iff. rewrite (IH Hl).
  destruct e as [s|d]; simpl in *.
  - apply negb_true_iff in He. by rewrite He.
  - destruct (d !! "name") as [name|]; [|reflexivity].
    apply andb_true_iff in He as [H1%negb_true_iff H2%negb_true_iff].
    destruct Hp as [-> | ->]; [by rewrite H1 | by rewrite H2].
Qed.

Lemma quiet_discover (l : list entry) (seen : gset string) (frontier : list target) :
  forallb quiet_entry l = true -> discover l seen frontier = inr frontier.
Proof.
  intros Hq. unfold discover, new_ports, new_sockets.
  rewrite !quiet_comprehension by auto. reflexivity.
Qed.

(** A turn whose probe hands back something that is not a list: nothing is
    looked up, nothing is discovered, the value is stored as it is. *)
Lemma body_probe_error (st : state) (popped : target) (rest : list target)
    (target : string) (failover : option string) (key : string) (addr : address)
    (msg : string) :
  unpack popped = inr (Some target, failover) ->
  locate target = inr (key, addr) ->
  probe_at (calls st) addr = UStr msg ->
  erase_log (body st popped rest)
  = Returned (State rest ({[target]} ∪ visited st)
                (<[key := Record_ (UStr msg) ∅]> (details st))
                (processed_pids st) (call_of addr :: calls st) []).
Proof.
  intros Hu Hloc Hp. unfold loop_body. rewrite Hu, Hloc, Hp. reflexivity.
Qed.

Lemma lookups_error_free (u : usage) (processed : gset string) (made : list call) :
  is_list u = false -> (lookups u processed made).1.1 = ∅.
Proof. destruct u; [discriminate | reflexivity]. Qed.

Section Quiet.

Hypothesis port_quiet :
  forall history host port, quiet (check_port_usage history host port) = true.
Hypothesis unix_quiet :
  forall history socket_path, quiet (check_unix_socket_usage history socket_path) = true.

Lemma body_quiet (st : state) (popped : target) (rest : list target) :
  well_formed popped = true ->
  exists st' key r,
    body st popped rest = Returned st'
    /\ key_of popped = Some key
    /\ targets st' = rest
    /\ details st' = <[key := r]> (details st)
    /\ (is_list (usage_info r) = false -> systemctl_service r = ∅).
Proof.
  unfold well_formed, key_of, loop_body. intros Hw.
  destruct (unpack popped) as [e|[[target|] failover]]; try discriminate.
  destruct (locate target) as [e|[key addr]]; [discriminate|].
  assert (Hq : quiet (probe_at (calls st) addr) = true)
    by (destruct addr; simpl; auto).
  pose proof (lookups_error_free (probe_at (calls st) addr) (processed_pids st)
                (call_of addr :: calls st)) as Hfree.
  destruct (lookups _ _ _) as [[services processed'] made].
  destruct (probe_at (calls st) addr) as [l|msg] eqn:Hp.
  - simpl in Hq. rewrite (quiet_discover _ _ _ Hq).
    eexists _, key, _. repeat split; try reflexivity. simpl. discriminate.
  - eexists _, key, _. repeat split; try reflexivity. simpl. intros _. by apply Hfree.
Qed.

Lemma loop_quiet (fuel : nat) :
  forall st,
    Forall (fun t => well_formed t = true) (targets st) ->
    length (targets st) <= fuel ->
    (forall key r, details st !! key = Some r ->
                   is_list (usage_info r) = false -> systemctl_service r = ∅) ->
    exists st',
      loop fuel st = Returned st'
      /\ (forall key, is_Some (details st !! key) -> is_Some (details st' !! key))
      /\ (forall t, t ∈ targets st ->
                    exists key, key_of t = Some key /\ is_Some (details st' !! key))
      /\ (forall key r, details st' !! key = Some r ->
                        is_list (usage_info r) = false -> systemctl_service r = ∅).
Proof.
  induction fuel as [|fuel IH]; intros st Hwf Hlen Herr.
  - destruct (targets st) as [|t l] eqn:Ht; [|simpl in Hlen; lia].
    exists st. simpl. rewrite (pop_nil st Ht).
    split; [reflexivity|]. split; [auto|]. split; [|exact Herr].
    intros t Hin. by apply elem_of_nil in Hin.
  - simpl. destruct (pop st) as [[popped rest]|] eqn:Hpop.
    + apply pop_perm in Hpop.
      rewrite Hpop in Hwf. apply Forall_cons in Hwf as [Hw Hwf].
      destruct (body_quiet st popped rest Hw) as (st1 & key & r & Hb & Hk & Hfr & Hd & Hr).
      rewrite Hb.
      destruct (IH st1) as (st' & Hrun & Hkeep & Hall & Herr').
      * by rewrite Hfr.
      * rewrite Hfr. apply Permutation_length in Hpop. simpl in Hpop. lia.
      * intros k r' Hk'. rewrite Hd in Hk'.
        destruct (decide (key = k)) as [<- | Hne].
        -- rewrite lookup_insert_eq in Hk'. injection Hk' as <-. exact Hr.
        -- rewrite lookup_insert_ne in Hk' by exact Hne. by eapply Herr.
      * exists st'. split; [exact Hrun|]. split; [|split; [|exact Herr']].
        -- intros k Hsome. apply Hkeep. rewrite Hd.
           destruct (decide (key = k)) as [<- | Hne];
             [rewrite lookup_insert_eq; eauto | by rewrite lookup_insert_ne].
        -- intros t Hin. rewrite Hpop in Hin.
           apply elem_of_cons in Hin as [-> | Hin].
           ++ exists key. split; [exact Hk|]. apply Hkeep.
              rewrite Hd, lookup_insert_eq. eauto.
           ++ apply Hall. by rewrite Hfr.
    + exists st. split; [reflexivity|]. split; [auto|]. split; [|exact Herr].
      intros t Hin. apply pop_None in Hpop. rewrite Hpop in Hin.
      by apply elem_of_nil in Hin.
Qed.

End Quiet.

End EngineFacts.

(** ** Complete records *)

Lemma service_pids_suffix (l1 l2 : list call) (pid : string) :
  l1 `suffix_of` l2 -> pid ∈ service_pids l1 -> pid ∈ service_pids l2.
Proof.
  intros [k ->] H. unfold service_pids. rewrite omap_app. apply elem_of_app. by right.
Qed.

Lemma service_pids_looked_up (pid : string) (h final : list call) :
  (CallService pid :: h) `suffix_of` final -> pid ∈ service_pids final.
Proof.
  intros H. apply (service_pids_suffix _ _ _ H).
  change (service_pids (CallService pid :: h)) with (pid :: service_pids h).
  apply elem_of_cons. by left.
Qed.

Lemma service_pids_probe (addr : address) (h : list call) :
  service_pids (call_of addr :: h) = service_pids h.
Proof. by destruct addr. Qed.

Lemma complete_record_later
    (get_systemctl_service : list call -> string -> string)
    (final final' probed : list call) (r : record) :
  final `suffix_of` final' ->
  complete_record get_systemctl_service final probed r ->
  complete_record get_systemctl_service final' probed r.
Proof.
  intros Hs. unfold complete_record. destruct (usage_info r) as [l|msg]; [|auto].
  intros (H1 & H2 & H3). split; [|split].
  - intros pid Hin Hne. eapply service_pids_suffix; eauto.
  - intros s Hin. destruct (H2 s Hin) as (pid & h & Hp & -> & Hpre & Hsuf).
    exists pid, h. repeat split; try assumption. by etransitivity.
  - intros pid Hin Hne Hnot. destruct (H3 pid Hin Hne Hnot) as (h & Hpre & Hsuf & Hs').
    exists h. repeat split; try assumption. by etransitivity.
Qed.

Lemma recorded_later
    (check_port_usage : list call -> string -> string -> usage)
    (check_unix_socket_usage : list call -> string -> usage)
    (get_systemctl_service : list call -> string -> string)
    (frontier : list target) (final final' : list call) (key : string) (r : record) :
  final `suffix_of` final' ->
  recorded check_port_usage check_unix_socket_usage get_systemctl_service
    frontier final key r ->
  recorded check_port_usage check_unix_socket_usage get_systemctl_service
    frontier final' key r.
Proof.
  intros Hs (t & addr & history & Hin & Hk & Ha & Hsuf & Hu & Hc).
  exists t, addr, history. repeat split; try assumption.
  - by etransitivity.
  - by eapply complete_record_later.
Qed.

Section Complete.

Variable check_port_usage : list call -> string -> string -> usage.
Variable check_unix_socket_usage : list call -> string -> usage.
Variable get_systemctl_service : list call -> string -> string.
Variable pop_index : state -> nat.

Local Abbreviation body :=
  (loop_body check_port_usage check_unix_socket_usage get_systemctl_service).
Local Abbreviation lookups := (lookup_services get_systemctl_service).
Local Abbreviation probe_at := (probe check_port_usage check_unix_socket_usage).
Local Abbreviation loop :=
  (resolve_loop check_port_usage check_unix_socket_usage get_systemctl_service pop_index).
Local Abbreviation pop := (set_pop pop_index).
Local Abbreviation step := (lookup_step get_systemctl_service).
Local Abbreviation recorded_in :=
  (recorded check_port_usage check_unix_socket_usage get_systemctl_service).

(** One turn of [for entry in usage_info]: either nothing changes, the
    entry being no string, an empty one or a cached one, or the service of
    a new process identifier is looked up. *)
Lemma lookup_step_cases (services processed : gset string) (made : list call) (e : entry) :
  (step (services, processed, made) e = (services, processed, made)
   /\ forall pid, e = EStr pid -> pid = EmptyString \/ pid ∈ processed)
  \/ exists pid,
       e = EStr pid /\ pid <> EmptyString /\ (pid ∉ processed)
       /\ step (services, processed, made) e
          = ({[get_systemctl_service made pid]} ∪ services,
             {[pid]} ∪ processed,
             CallService pid :: made).
Proof.
  destruct e as [pid|d]; [|left; split; [reflexivity | discriminate]].
  simpl. destruct pid as [|c pid]; simpl.
  { left. split; [reflexivity|]. intros ? [= <-]. by left. }
  destruct (bool_decide (String c pid ∉ processed)) eqn:Hc.
  - right. exists (String c pid). apply bool_decide_eq_true in Hc.
    repeat split; [discriminate | exact Hc].
  - left. split; [reflexivity|]. intros ? [= <-]. right.
    apply bool_decide_eq_false in Hc. by apply dec_stable.
Qed.

(** The whole lookup loop, from any accumulator. *)
Lemma lookup_fold (l : list entry) :
  forall services processed made services' processed' made',
    foldl step (services, processed, made) l = (services', processed', made') ->
    services ⊆ services'
    /\ made `suffix_of` made'
    /\ (forall s, s ∈ services' ->
          s ∈ services
          \/ exists pid h,
               EStr pid ∈ l /\ s = get_systemctl_service h pid
               /\ made `suffix_of` h /\ (CallService pid :: h) `suffix_of` made')
    /\ (forall pid, EStr pid ∈ l -> pid <> EmptyString -> pid ∉ processed ->
          exists h,
            made `suffix_of` h /\ (CallService pid :: h) `suffix_of` made'
            /\ get_systemctl_service h pid ∈ services').
Proof.
  induction l as [|e l IH]; intros services processed made services' processed' made'.
  - intros [= <- <- <-]. split; [done|]. split; [done|]. split; [auto|].
    intros pid Hin. by apply elem_of_nil in Hin.
  - cbn [foldl].
    destruct (lookup_step_cases services processed made e)
      as [[-> Hskip] | (pid0 & -> & Hne0 & Hnew & ->)]; intros Hf;
      destruct (IH _ _ _ _ _ _ Hf) as (Hsub & Hsuf & Hsound & Hcompl).
    + split; [exact Hsub|]. split; [exact Hsuf|]. split.
      * intros s Hs. destruct (Hsound s Hs) as [Hold | (pid & h & Hin & Heq & Hp & Hq)];
          [by left | right].
        exists pid, h. repeat split; try assumption. apply elem_of_cons. by right.
      * intros pid Hin Hne Hnot. apply Hcompl; try assumption.
        apply elem_of_cons in Hin as [<- | Hin]; [|exact Hin].
        destruct (Hskip pid eq_refl); contradiction.
    + assert (Hm : made `suffix_of` (CallService pid0 :: made)) by apply suffix_cons_r, reflexivity.
      split; [set_solver|]. split; [by etransitivity|]. split.
      * intros s Hs. destruct (Hsound s Hs) as [Hold | (pid & h & Hin & Heq & Hp & Hq)].
        -- apply elem_of_union in Hold as [->%elem_of_singleton | Hold]; [right | by left].
           exists pid0, made. repeat split; try done. apply elem_of_cons. by left.
        -- right. exists pid, h. repeat split; try assumption.
           ++ apply elem_of_cons. by right.
           ++ by etransitivity.
      * intros pid Hin Hne Hnot.
        destruct (decide (pid = pid0)) as [-> | Hdiff].
        -- exists made. repeat split; try done. apply Hsub. set_solver.
        -- apply elem_of_cons in Hin as [[= ->] | Hin]; [done|].
           destruct (Hcompl pid Hin Hne) as (h & Hp & Hq & Hr); [set_solver|].
           exists h. repeat split; try assumption. by etransitivity.
Qed.

(** The record a turn stores is complete. *)
Lemma body_recorded (frontier : list target) (st st' : state)
    (popped : target) (rest : list target) :
  body st popped rest = Returned st' ->
  popped ∈ frontier ->
  processed_pids st = list_to_set (service_pids (calls st)) ->
  (forall key r, details st !! key = Some r -> recorded_in frontier (calls st) key r) ->
  forall key r, details st' !! key = Some r -> recorded_in frontier (calls st') key r.
Proof.
  intros Hb Hin Hp Hold.
  apply body_Returned in Hb
    as (target & failover & key0 & addr & services & Hu & Hloc & Hl & _ & Hd & _).
  assert (Hsuf : (call_of addr :: calls st) `suffix_of` calls st'
                 /\ complete_record get_systemctl_service (calls st')
                      (call_of addr :: calls st)
                      (Record_ (probe_at (calls st) addr) services)).
  { unfold complete_record, lookup_services in *. cbn [usage_info systemctl_service].
    destruct (probe_at (calls st) addr) as [l|msg].
    - apply lookup_fold in Hl as (_ & Hsuf & Hsound & Hcompl).
      split; [exact Hsuf|]. split; [|split].
      + intros pid Hpid Hne.
        destruct (decide (pid ∈ service_pids (calls st))) as [Hyes | Hno].
        * eapply service_pids_suffix; [|exact Hyes].
          etransitivity; [|exact Hsuf]. apply suffix_cons_r. reflexivity.
        * destruct (Hcompl pid Hpid Hne) as (h & _ & Hq & _).
          { rewrite Hp. by rewrite elem_of_list_to_set. }
          by eapply service_pids_looked_up.
      + intros s Hs. destruct (Hsound s Hs) as [Hempty | Hex]; [|exact Hex].
        by apply elem_of_empty in Hempty.
      + intros pid Hpid Hne Hnot. apply Hcompl; try assumption.
        rewrite service_pids_probe in Hnot.
        rewrite Hp. by rewrite elem_of_list_to_set.
    - injection Hl as <- _ <-. split; reflexivity. }
  destruct Hsuf as [Hsuf Hc].
  intros key r Hk. rewrite Hd in Hk.
  destruct (decide (key0 = key)) as [<- | Hne].
  - rewrite lookup_insert_eq in Hk. injection Hk as <-.
    exists popped, addr, (calls st).
    unfold key_of, address_of. rewrite Hu, Hloc. auto 10.
  - rewrite lookup_insert_ne in Hk by exact Hne.
    eapply recorded_later; [|by eapply Hold].
    etransitivity; [|exact Hsuf]. apply suffix_cons_r. reflexivity.
Qed.

(** Every record of a run that returns is complete. *)
Lemma loop_recorded (frontier : list target) (fuel : nat) :
  forall st st',
    loop fuel st = Returned st' ->
    processed_pids st = list_to_set (service_pids (calls st)) ->
    NoDup (service_pids (calls st)) ->
    (forall t, t ∈ targets st -> well_formed t = true -> t ∈ frontier) ->
    (forall key r, details st !! key = Some r -> recorded_in frontier (calls st) key r) ->
    forall key r, details st' !! key = Some r -> recorded_in frontier (calls st') key r.
Proof.
  induction fuel as [|fuel IH]; intros st st'; simpl.
  - destruct (pop st) as [[popped rest]|]; [discriminate|]. by intros [= <-].
  - destruct (pop st) as [[popped rest]|] eqn:Hpop; [|by intros [= <-]].
    destruct (body st popped rest) as [st1|e made|] eqn:Hb; [|discriminate..].
    intros Hrun Hp Hn Hfr Hold.
    apply pop_perm in Hpop.
    pose proof (body_cached check_port_usage check_unix_socket_usage
                  get_systemctl_service st popped rest Hp Hn) as [Hn1 Hp1].
    rewrite Hb in Hn1, Hp1. simpl in Hn1.
    assert (Hw : well_formed popped = true).
    { apply body_Returned in Hb
        as (target & failover & key0 & addr & services & Hu & Hloc & _).
      unfold well_formed, key_of. by rewrite Hu, Hloc. }
    assert (Hin : popped ∈ frontier).
    { apply Hfr; [|exact Hw]. rewrite Hpop. apply elem_of_cons. by left. }
    apply (IH st1 st' Hrun Hp1 Hn1).
    + intros t Ht Hwt.
      destruct (body_frontier _ _ _ _ _ _ _ Hb) as (extra & Heq & Hex).
      rewrite Heq in Ht. apply elem_of_app in Ht as [Ht | Ht].
      * apply Hfr; [|exact Hwt]. rewrite Hpop. apply elem_of_cons. by right.
      * rewrite Forall_forall in Hex.
        destruct (discovered_not_unpackable t (Hex t Ht)) as [Hu _].
        unfold well_formed, key_of in Hwt. unfold unpackable in Hu.
        destruct (unpack t); [discriminate Hwt | discriminate Hu].
    + by eapply body_recorded.
Qed.

(** A turn whose probe hands back something that is not a list, in full:
    the turn returns, and the report of the unexpected format is the last
    line it logs. *)
Lemma body_probe_error_logged (st : state) (popped : target) (rest : list target)
    (target : string) (failover : option string) (key : string) (addr : address)
    (msg : string) :
  unpack popped = inr (Some target, failover) ->
  locate target = inr (key, addr) ->
  probe_at (calls st) addr = UStr msg ->
  exists st' earlier,
    body st popped rest = Returned st'
    /\ targets st' = rest
    /\ visited st' = {[target]} ∪ visited st
    /\ details st' = <[key := Record_ (UStr msg) ∅]> (details st)
    /\ processed_pids st' = processed_pids st
    /\ calls st' = call_of addr :: calls st
    /\ log st' = LogUnexpected key :: earlier.
Proof.
  intros Hu Hloc Hp. unfold loop_body. rewrite Hu, Hloc, Hp.
  eexists _, _. repeat split; reflexivity.
Qed.

Section ProbeErrors.

Hypothesis port_quiet :
  forall history host port, quiet (check_port_usage history host port) = true.
Hypothesis unix_quiet :
  forall history socket_path, quiet (check_unix_socket_usage history socket_path) = true.

(** C7, amended.  A turn whose probe returns a value that is not a list --
    the error string [check_port_usage] returns when [subprocess.run]
    raises; [check_unix_socket_usage] returns the empty list then -- does
    not raise, in whatever state: the value is stored unchanged under the
    target's key with an empty service list, the unexpected format is
    logged, no service is looked up, nothing is discovered and the frontier
    is what the pop left.  When the elements of the frontier can all be
    unpacked and located and every probe returns such an error value or a
    list that gives the discovery step nothing to read, the run returns with
    the frontier drained, and every element has a complete record under its
    key: the value a probe of an element with that key returned during the
    run, with the service names [get_systemctl_service] gave in that turn
    for the process identifiers of that value not looked up before, and no
    other. *)
Theorem probe_error_does_not_abort (fuel : nat) (frontier : list target) :
  Forall (fun t => well_formed t = true) frontier ->
  length frontier <= fuel ->
  (exists st,
     resolve_targets check_port_usage check_unix_socket_usage get_systemctl_service
       pop_index fuel frontier = Returned st
     /\ targets st = []
     /\ forall t, t ∈ frontier ->
          exists key r,
            key_of t = Some key
            /\ details st !! key = Some r
            /\ recorded_in frontier (calls st) key r)
  /\ (forall st0 popped rest target failover key addr msg,
        unpack popped = inr (Some target, failover) ->
        locate target = inr (key, addr) ->
        probe_at (calls st0) addr = UStr msg ->
        exists st1 earlier,
          body st0 popped rest = Returned st1
          /\ targets st1 = rest
          /\ visited st1 = {[target]} ∪ visited st0
          /\ details st1 = <[key := Record_ (UStr msg) ∅]> (details st0)
          /\ processed_pids st1 = processed_pids st0
          /\ calls st1 = call_of addr :: calls st0
          /\ log st1 = LogUnexpected key :: earlier)
  /\ (forall (subprocess_run : list call -> list string -> string + string)
             history msg,
        (forall host port,
           subprocess_run history ["sudo"; "lsof"; "-t"; "-i"; "@" +:+ host +:+ ":" +:+ port]
           = inr msg ->
           OS.check_port_usage subprocess_run history host port
           = UStr ("Error checking port " +:+ port +:+ " on " +:+ host +:+ ": " +:+ msg))
        /\ (forall socket_path,
              subprocess_run history ["sudo"; "lsof"; "-t"; socket_path] = inr msg ->
              OS.check_unix_socket_usage subprocess_run history socket_path = UList [])).
Proof.
  intros Hwf Hlen. split; [|split].
  - unfold resolve_targets.
    destruct (loop_quiet check_port_usage check_unix_socket_usage get_systemctl_service
                pop_index port_quiet unix_quiet fuel (initial frontier))
      as (st & Hrun & _ & Hall & _); [exact Hwf | exact Hlen | |].
    { intros key r Hk. simpl in Hk. by rewrite lookup_empty in Hk. }
    exists st. split; [exact Hrun|].
    split.
    { by apply loop_visited in Hrun as [? _]. }
    intros t Hin. destruct (Hall t Hin) as (key & Hk & [r Hr]).
    exists key, r. split; [exact Hk|]. split; [exact Hr|].
    apply (loop_recorded frontier fuel (initial frontier) st Hrun).
    + reflexivity.
    + constructor.
    + intros t' Hin' _. exact Hin'.
    + intros key' r' Hk'. simpl in Hk'. by rewrite lookup_empty in Hk'.
    + exact Hr.
  - intros. by eapply body_probe_error_logged.
  - intros subprocess_run history msg. split.
    + intros host port Hrun. unfold OS.check_port_usage, OS.run. by rewrite Hrun.
    + intros socket_path Hrun. unfold OS.check_unix_socket_usage, OS.run. by rewrite Hrun.
Qed.

End ProbeErrors.

End Complete.

(** ** Worked runs *)



(** The hypothesis of C4 on the first turn of the chain script. *)
Lemma discovered_target_raises_ValueError_witness :
  loop_body Script.chain_port Script.no_unix Script.unit_of
    (initial [Script.proxy_8080]) Script.proxy_8080 []
  = Returned chain_after_8080
  /\ Forall (fun d =>
               d ∈ []
               \/ raises_on_pop Script.chain_port Script.no_unix Script.unit_of d)
            (targets chain_after_8080).
Proof.
  split; [vm_compute; reflexivity|].
  apply (discovered_target_raises_ValueError Script.chain_port Script.no_unix
           Script.unit_of (initial [Script.proxy_8080]) chain_after_8080
           Script.proxy_8080 []).
  vm_compute. reflexivity.
Defined.

(** The bound on the two proxies that forward to each other. *)
Lemma resolve_targets_terminates_witness :
  pending [Script.proxy_8080; Script.proxy_8081] < 3
  /\ resolve_targets Script.cycle_port Script.no_unix Script.unit_of Script.oldest
       3 [Script.proxy_8080; Script.proxy_8081] <> OutOfFuel.
Proof.
  assert (H : pending [Script.proxy_8080; Script.proxy_8081] < 3) by (vm_compute; lia).
  split; [exact H|].
  apply (resolve_targets_terminates Script.cycle_port Script.no_unix Script.unit_of
           Script.oldest 3 [Script.proxy_8080; Script.proxy_8081] H).
Defined.

(** The two proxies that forward to each other: the second turn drops the
    address already visited, the third pops the string the first one added. *)
Example cycle_run :
  resolve_targets Script.cycle_port Script.no_unix Script.unit_of Script.oldest
    3 [Script.proxy_8080; Script.proxy_8081]
  = Raised ValueError [CallPort "127.0.0.1" "8081"; CallPort "127.0.0.1" "8080"].
Proof. vm_compute. reflexivity. Qed.





(** ** The module's own probes *)

Section OwnProbes.

Variable subprocess_run : list call -> list string -> string + string.

Local Abbreviation own_body :=
  (loop_body (OS.check_port_usage subprocess_run)
             (OS.check_unix_socket_usage subprocess_run)
             (OS.get_systemctl_service subprocess_run)).

Lemma lines_of_nonempty (stdout : string) :
  exists pid pids, OS.lines_of stdout = EStr pid :: pids.
Proof.
  unfold OS.lines_of.
  pose proof (split_nonempty "010" (PyStr.strip stdout)) as Hne.
  destruct (PyStr.split "010" (PyStr.strip stdout)) as [|pid pids]; [congruence|].
  by exists pid, (EStr <$> pids).
Qed.

(** The probes of this module only produce strings, and strings give the
    discovery step nothing: it raises or leaves the frontier as it was. *)
Lemma own_entries_discover_nothing (stdout : string) (seen : gset string)
    (frontier frontier' : list target) :
  discover (OS.lines_of stdout) seen frontier = inr frontier' -> frontier' = frontier.
Proof.
  unfold OS.lines_of, discover, new_ports, new_sockets.
  assert (Hnone : forall prefix pick ss r,
            comprehension (named prefix pick) (EStr <$> ss) = inr r -> r = []).
  { intros prefix pick ss. induction ss as [|x ss IH]; intros r; simpl; [congruence|].
    destruct (PyStr.contains "name" x); [discriminate|].
    change (list_fmap string entry EStr ss) with (EStr <$> ss).
    destruct (comprehension (named prefix pick) (EStr <$> ss)) as [e|r'] eqn:Hc;
      intros Hr; [discriminate Hr|].
    injection Hr as <-. by apply IH. }
  destruct (comprehension _ _) as [e|ports] eqn:H1; [discriminate|].
  apply Hnone in H1 as ->.
  destruct (comprehension _ _) as [e|sockets] eqn:H2; [discriminate|].
  apply Hnone in H2 as ->. by intros [= <-].
Qed.

Lemma locate_unix (socket_path : string) :
  locate ("unix:" +:+ socket_path) = inr ("unix:" +:+ socket_path, Unix socket_path).
Proof. reflexivity. Qed.

(** C10, amended: when [subprocess.run] raises, [check_unix_socket_usage]
    hands back the empty list, where [check_port_usage] hands back an error
    string.  The turn of [resolve_targets] on a UNIX-socket target then
    stores the empty list with no service name and goes on, so the record
    carries no error marker.  A probe that succeeds always hands back a list
    with at least one string (one empty string when nothing was printed), so
    its record is never the one stored after a failure. *)
Theorem unix_probe_error_is_empty_list (history : list call) (socket_path : string) :
  match subprocess_run history ["sudo"; "lsof"; "-t"; socket_path] with
  | inr _ =>
      OS.check_unix_socket_usage subprocess_run history socket_path = UList []
  | inl stdout =>
      OS.check_unix_socket_usage subprocess_run history socket_path
      = UList (OS.lines_of stdout)
      /\ exists pid pids, OS.lines_of stdout = EStr pid :: pids
  end
  /\ (forall host port,
        match subprocess_run history
                ["sudo"; "lsof"; "-t"; "-i"; "@" +:+ host +:+ ":" +:+ port] with
        | inr msg =>
            OS.check_port_usage subprocess_run history host port
            = UStr ("Error checking port " +:+ port +:+ " on " +:+ host +:+ ": " +:+ msg)
        | inl stdout =>
            OS.check_port_usage subprocess_run history host port
            = UList (OS.lines_of stdout)
        end)
  /\ (forall st failover rest,
        match subprocess_run (calls st) ["sudo"; "lsof"; "-t"; socket_path] with
        | inr _ =>
            erase_log (own_body st (TPair (Some ("unix:" +:+ socket_path)) failover) rest)
            = Returned (State rest ({["unix:" +:+ socket_path]} ∪ visited st)
                          (<["unix:" +:+ socket_path := Record_ (UList []) ∅]> (details st))
                          (processed_pids st) (CallUnix socket_path :: calls st) [])
        | inl stdout =>
            match own_body st (TPair (Some ("unix:" +:+ socket_path)) failover) rest with
            | Returned st' =>
                exists services,
                  details st' !! ("unix:" +:+ socket_path)
                  = Some (Record_ (UList (OS.lines_of stdout)) services)
            | Raised e _ => e = TypeError
            | OutOfFuel => False
            end
        end).
Proof.
  split; [|split].
  - unfold OS.check_unix_socket_usage, OS.run.
    destruct (subprocess_run history _) as [stdout|msg]; simpl; [|reflexivity].
    split; [reflexivity | apply lines_of_nonempty].
  - intros host port. unfold OS.check_port_usage, OS.run.
    destruct (subprocess_run history _) as [stdout|msg]; reflexivity.
  - intros st failover rest.
    destruct (subprocess_run (calls st) _) as [stdout|msg] eqn:Hrun.
    + assert (Hp : OS.check_unix_socket_usage subprocess_run (calls st) socket_path
                   = UList (OS.lines_of stdout))
        by (unfold OS.check_unix_socket_usage, OS.run; by rewrite Hrun).
      unfold loop_body. cbn [unpack]. rewrite locate_unix. cbn [probe call_of].
      rewrite Hp. simpl.
      destruct (foldl _ _ _) as [[services processed'] made].
      destruct (discover _ _ rest) as [e|frontier] eqn:Hd.
      * unfold discover in Hd.
        assert (Hty : forall prefix pick l r,
                  comprehension (named prefix pick) l = inl r -> r = TypeError).
        { clear. intros prefix pick l. induction l as [|x l IH]; intros r; simpl; [discriminate|].
          destruct (named prefix pick x) as [e|o] eqn:Hn.
          - intros [= <-]. unfold named in Hn. destruct x as [s|d].
            + destruct (PyStr.contains "name" s); congruence.
            + destruct (d !! "name") as [n|]; [|discriminate].
              destruct (PyStr.startswith n prefix); discriminate.
          - destruct (comprehension (named prefix pick) l); [|discriminate].
            intros [= <-]. by apply IH. }
        destruct (new_ports _) as [e1|ports] eqn:H1;
          [injection Hd as <-; by eapply Hty|].
        destruct (new_sockets _) as [e2|sockets] eqn:H2; [|discriminate].
        injection Hd as <-. by eapply Hty.
      * simpl. rewrite lookup_insert_eq. eauto.
    + assert (Hp : OS.check_unix_socket_usage subprocess_run (calls st) socket_path
                   = UList [])
        by (unfold OS.check_unix_socket_usage, OS.run; by rewrite Hrun).
      unfold loop_body. cbn [unpack]. rewrite locate_unix. cbn [probe call_of].
      rewrite Hp. reflexivity.
Qed.

End OwnProbes.

(** C10, as stated, fails: an empty answer of [lsof] and a failure of
    [subprocess.run] do not give the same value, neither from the probe nor
    in the record [resolve_targets] stores. *)
Lemma unix_probe_error_differs_from_empty_probe :
  OS.check_unix_socket_usage (fun _ _ => inr "Permission denied") [] "/run/app.sock"
  = UList []
  /\ OS.check_unix_socket_usage (fun _ _ => inl EmptyString) [] "/run/app.sock"
     = UList [EStr EmptyString]
  /\ OS.check_unix_socket_usage (fun _ _ => inr "Permission denied") [] "/run/app.sock"
     <> OS.check_unix_socket_usage (fun _ _ => inl EmptyString) [] "/run/app.sock"
  /\ stored_for "unix:/run/app.sock"
       (own_run (fun _ _ => inr "Permission denied") Script.oldest 1 [Script.app_sock])
     = Some (Record_ (UList []) ∅)
  /\ stored_for "unix:/run/app.sock"
       (own_run (fun _ _ => inl EmptyString) Script.oldest 1 [Script.app_sock])
     = Some (Record_ (UList [EStr EmptyString]) ∅).
Proof. vm_compute. repeat split; discriminate. Qed.

Local Abbreviation host_body :=
  (loop_body (OS.check_port_usage Script.host)
             (OS.check_unix_socket_usage Script.host)
             (OS.get_systemctl_service Script.host)).

(** Two frontier elements with the primary [unix:/run/app.sock]: the run
    returns and the record kept is the one of the later probe. *)
Example app_sock_run :
  own_run Script.host Script.oldest 2 [Script.app_sock; Script.app_sock_failover]
  = Returned Script.after_app_sock_failover.
Proof. vm_compute. reflexivity. Qed.

(** The hypothesis of C5 on the second of the two turns. *)
Lemma overwrite_last_write_wins_witness :
  host_body Script.after_app_sock Script.app_sock_failover []
  = Returned Script.after_app_sock_failover
  /\ overwrites (OS.check_port_usage Script.host)
                (OS.check_unix_socket_usage Script.host)
                (OS.get_systemctl_service Script.host)
                Script.after_app_sock Script.after_app_sock_failover
                Script.app_sock_failover [].
Proof.
  split; [vm_compute; reflexivity|].
  apply (overwrite_last_write_wins (OS.check_port_usage Script.host)
           (OS.check_unix_socket_usage Script.host)
           (OS.get_systemctl_service Script.host)
           Script.after_app_sock Script.after_app_sock_failover
           Script.app_sock_failover []).
  vm_compute. reflexivity.
Defined.

(** The failover pair of the specification: one probe, for port 9000; the
    backup shows up in the warning only. *)
Example failover_pair_run :
  own_run Script.host Script.oldest 1 [Script.failover_9000]
  = Returned
      (State []
             {["http://127.0.0.1:9000"]}
             {["127.0.0.1:9000" := Record_ (UList [EStr "4242"]) {["app@4242.service"]}]}
             {["4242"]}
             [CallService "4242"; CallPort "127.0.0.1" "9000"]
             [LogResolving "http://127.0.0.1:9000"; LogFailover "http://127.0.0.1:9001"]).
Proof. vm_compute. reflexivity. Qed.

(** A refused probe next to two that succeed: three records, the refused
    one with the error text and no service. *)
Example refused_port_run :
  match own_run Script.host Script.oldest 3
          [Script.refused_7000; Script.backend_7001; Script.app_sock] with
  | Returned st =>
      details st !! "127.0.0.1:7000"
      = Some (Record_ (UStr "Error checking port 7000 on 127.0.0.1: [Errno 13] Permission denied: 'sudo'") ∅)
      /\ details st !! "127.0.0.1:7001"
         = Some (Record_ (UList [EStr "4242"]) {["app@4242.service"]})
      /\ details st !! "unix:/run/app.sock"
         = Some (Record_ (UList [EStr "200"]) {["app@200.service"]})
  | _ => False
  end.
Proof. vm_compute. repeat split; reflexivity. Qed.

(** C7, as stated, fails.  A probe list with an entry that is no process
    identifier but has the word [name] in it makes [resolve_targets] raise
    [TypeError] in the discovery step: with that probe popped first, the
    other target is never probed and no result comes back; with the other
    target popped first, its record is lost with the rest.  And a failure
    of the UNIX-socket probe leaves no error in the record: the empty list
    is stored. *)
Lemma probe_result_can_abort :
  OS.check_port_usage noisy_host [] "127.0.0.1" "7001"
  = UList [EStr "lsof: no user name for uid 0"]
  /\ own_run noisy_host Script.oldest 2 [Script.backend_7001; Script2.backend_7002]
     = Raised TypeError
         [CallService "lsof: no user name for uid 0"; CallPort "127.0.0.1" "7001"]
  /\ stored_for "127.0.0.1:7002"
       (own_run noisy_host Script.oldest 2 [Script.backend_7001; Script2.backend_7002])
     = None
  /\ own_run noisy_host newest 2 [Script.backend_7001; Script2.backend_7002]
     = Raised TypeError
         [CallService "lsof: no user name for uid 0"; CallPort "127.0.0.1" "7001";
          CallService "4242"; CallPort "127.0.0.1" "7002"]
  /\ stored_for "unix:/run/app.sock"
       (own_run (fun _ _ => inr "Permission denied") Script.oldest 1 [Script.app_sock])
     = Some (Record_ (UList []) ∅).
Proof. vm_compute. repeat split; reflexivity. Qed.

(** The hypotheses of C7 on this module's own probes and the scripted host. *)
Lemma probe_error_does_not_abort_witness :
  Forall (fun t => well_formed t = true)
         [Script.refused_7000; Script.backend_7001; Script.app_sock]
  /\ exists st,
       own_run Script.host Script.oldest 3 [Script.refused_7000; Script.backend_7001; Script.app_sock]
       = Returned st
       /\ targets st = []
       /\ forall t, t ∈ [Script.refused_7000; Script.backend_7001; Script.app_sock] ->
            exists key r,
              key_of t = Some key
              /\ details st !! key = Some r
              /\ recorded (OS.check_port_usage Script.host)
                   (OS.check_unix_socket_usage Script.host)
                   (OS.get_systemctl_service Script.host)
                   [Script.refused_7000; Script.backend_7001; Script.app_sock]
                   (calls st) key r.
Proof.
  assert (Hwf : Forall (fun t => well_formed t = true)
                  [Script.refused_7000; Script.backend_7001; Script.app_sock])
    by (repeat (constructor; [vm_compute; reflexivity|]); constructor).
  assert (Hport : forall history host port,
             quiet (OS.check_port_usage Script.host history host port) = true).
  { intros history host port. unfold OS.check_port_usage, OS.run, Script.host.
    destruct (String.eqb _ _); vm_compute; reflexivity. }
  assert (Hunix : forall history socket_path,
             quiet (OS.check_unix_socket_usage Script.host history socket_path) = true).
  { intros history socket_path. unfold OS.check_unix_socket_usage, OS.run, Script.host.
    destruct history; vm_compute; reflexivity. }
  split; [exact Hwf|].
  destruct (probe_error_does_not_abort
              (OS.check_port_usage Script.host) (OS.check_unix_socket_usage Script.host)
              (OS.get_systemctl_service Script.host) Script.oldest Hport Hunix
              3 [Script.refused_7000; Script.backend_7001; Script.app_sock] Hwf)
    as [Hrun _]; [simpl; lia|].
  exact Hrun.
Defined.

(** * The rest of the module *)

(** ** Splitting and joining *)

Lemma is_token_cons (c : ascii) (s : string) :
  PyStr2.is_token (String c s) = negb (PyStr.isspace c) && PyStr2.free_of PyStr.isspace s.
Proof. reflexivity. Qed.

Lemma is_token_grow (c : ascii) (s : string) :
  PyStr.isspace c = false -> PyStr2.is_token s = true ->
  PyStr2.is_token (String c s) = true.
Proof.
  intros Hc Hs. rewrite is_token_cons, Hc. simpl.
  unfold PyStr2.is_token in Hs. by apply andb_true_iff in Hs as [_ Hs].
Qed.

(** [str.split()] only produces tokens. *)
Lemma split_ws_tokens (s : string) :
  Forall (fun p => PyStr2.is_token p = true) (PyStr.split_ws s).
Proof.
  induction s as [|c s IH]; [constructor|].
  cbn [PyStr.split_ws].
  destruct (PyStr.isspace c) eqn:Hc; [exact IH|].
  assert (H1 : PyStr2.is_token (String c EmptyString) = true)
    by (rewrite is_token_cons, Hc; reflexivity).
  destruct s as [|c' s']; [by constructor|].
  destruct (PyStr.isspace c') eqn:Hc'; [by constructor|].
  destruct (PyStr.split_ws (String c' s')) as [|h t]; [by constructor|].
  apply Forall_cons in IH as [Hh Ht].
  constructor; [by apply is_token_grow | exact Ht].
Qed.

Lemma split_ws_token_then (p s : string) :
  PyStr2.is_token p = true ->
  PyStr.split_ws (p +:+ String " " s) = p :: PyStr.split_ws s.
Proof.
  induction p as [|c p IH]; [discriminate|].
  rewrite is_token_cons. intros [Hc Hp]%andb_true_iff.
  apply negb_true_iff in Hc.
  change (String c p +:+ String " " s) with (String c (p +:+ String " " s)).
  cbn [PyStr.split_ws]. rewrite Hc.
  destruct p as [|c' p'].
  - reflexivity.
  - change (String c' p' +:+ String " " s) with (String c' (p' +:+ String " " s)) in *.
    simpl in Hp. apply andb_true_iff in Hp as [Hc' Hp'].
    apply negb_true_iff in Hc'. rewrite Hc'.
    rewrite IH; [reflexivity|].
    rewrite is_token_cons, Hc'. exact Hp'.
Qed.

Lemma split_ws_token (p : string) :
  PyStr2.is_token p = true -> PyStr.split_ws p = [p].
Proof.
  induction p as [|c p IH]; [discriminate|].
  rewrite is_token_cons. intros [Hc Hp]%andb_true_iff.
  apply negb_true_iff in Hc.
  cbn [PyStr.split_ws]. rewrite Hc.
  destruct p as [|c' p']; [reflexivity|].
  simpl in Hp. apply andb_true_iff in Hp as [Hc' Hp'].
  apply negb_true_iff in Hc'. rewrite Hc'.
  rewrite IH; [reflexivity|].
  rewrite is_token_cons, Hc'. exact Hp'.
Qed.

(** Joining tokens with a space and splitting again gives the tokens back. *)
Lemma split_ws_join (parts : list string) :
  Forall (fun p => PyStr2.is_token p = true) parts ->
  PyStr.split_ws (PyStr2.join " " parts) = parts.
Proof.
  induction 1 as [|p parts Hp Hall IH]; [reflexivity|].
  destruct parts as [|p' parts']; [by apply split_ws_token|].
  change (PyStr2.join " " (p :: p' :: parts'))
    with (p +:+ String " " (PyStr2.join " " (p' :: parts'))).
  rewrite split_ws_token_then by exact Hp. by rewrite IH.
Qed.

Lemma uncommented_tokens (parts : list string) :
  Forall (fun p => PyStr2.is_token p = true) parts ->
  Forall (fun p => PyStr2.is_token p = true) (uncommented parts).
Proof.
  induction 1 as [|p parts Hp Hall IH]; simpl; [constructor|].
  destruct (PyStr.startswith p "#"); [constructor | by constructor].
Qed.

Lemma uncommented_clean (parts : list string) :
  Forall (fun p => PyStr.startswith p "#" = false) (uncommented parts).
Proof.
  induction parts as [|p parts IH]; simpl; [constructor|].
  destruct (PyStr.startswith p "#") eqn:Hp; [constructor | by constructor].
Qed.

Lemma uncommented_fixed (parts : list string) :
  Forall (fun p => PyStr.startswith p "#" = false) parts -> uncommented parts = parts.
Proof.
  induction 1 as [|p parts Hp Hall IH]; simpl; [reflexivity|].
  by rewrite Hp, IH.
Qed.

Lemma reconstruct_line_split (line : string) :
  PyStr.split_ws (reconstruct_line line) = uncommented (PyStr.split_ws line).
Proof. apply split_ws_join, uncommented_tokens, split_ws_tokens. Qed.

(** X1: splitting what [reconstruct_line] returns gives exactly the parts
    of the line that come before the first part starting with [#]; no part
    of the result starts with [#]. *)
Theorem reconstruct_line_parts (line : string) :
  PyStr.split_ws (reconstruct_line line) = uncommented (PyStr.split_ws line)
  /\ Forall (fun p => PyStr.startswith p "#" = false)
            (PyStr.split_ws (reconstruct_line line)).
Proof.
  rewrite reconstruct_line_split. split; [reflexivity | apply uncommented_clean].
Qed.

(** X2: [reconstruct_line] is idempotent: a reconstructed line is left as
    it is. *)
Theorem reconstruct_line_idempotent (line : string) :
  reconstruct_line (reconstruct_line line) = reconstruct_line line.
Proof.
  unfold reconstruct_line at 1. rewrite reconstruct_line_split.
  by rewrite uncommented_fixed by apply uncommented_clean.
Qed.

(** X3: inside a virtual host the classifier sees the line without its
    comment, so a target that only occurs after a [#] part is never taken:
    the result is decided by the parts before it. *)
Theorem proxypass_target_skips_comment (line : string) :
  proxypass_target (reconstruct_line line)
  = proxypass_parts (uncommented (PyStr.split_ws line)).
Proof. unfold proxypass_target. by rewrite reconstruct_line_split. Qed.

(** ** Host and port *)

Lemma split_length (c : ascii) (s : string) :
  length (PyStr.split c s) = S (PyStr2.count c s).
Proof.
  induction s as [|d s IH]; [reflexivity|].
  cbn [PyStr.split PyStr2.count].
  destruct (Ascii.eqb d c); simpl; [by rewrite IH|].
  destruct (PyStr.split c s) as [|h t]; simpl in *; lia.
Qed.

(** [sep.join(s.split(sep))] is [s]. *)
Lemma join_split (c : ascii) (s : string) :
  PyStr2.join (String c EmptyString) (PyStr.split c s) = s.
Proof.
  induction s as [|d s IH]; [reflexivity|].
  cbn [PyStr.split].
  destruct (Ascii.eqb d c) eqn:Hd.
  - apply Ascii.eqb_eq in Hd as ->.
    pose proof (split_nonempty c s) as Hne.
    destruct (PyStr.split c s) as [|h t]; [congruence|].
    change (PyStr2.join (String c EmptyString) (EmptyString :: h :: t))
      with (String c (PyStr2.join (String c EmptyString) (h :: t))).
    by rewrite IH.
  - destruct (PyStr.split c s) as [|h t] eqn:Hs.
    + by destruct (split_nonempty c s).
    + destruct t as [|h' t'].
      * simpl in *. by rewrite IH.
      * change (PyStr2.join (String c EmptyString) (String d h :: h' :: t'))
          with (String d (PyStr2.join (String c EmptyString) (h :: h' :: t'))).
        by rewrite IH.
Qed.

(** No field of a split holds the separator, and none holds more of
    another character than the whole. *)
Lemma split_fields (c b : ascii) (s : string) :
  Forall (fun f => PyStr2.count c f = 0 /\ PyStr2.count b f <= PyStr2.count b s)
         (PyStr.split c s).
Proof.
  induction s as [|d s IH]; [by repeat constructor|].
  cbn [PyStr.split].
  destruct (Ascii.eqb d c) eqn:Hd.
  - constructor; [simpl; split; [reflexivity | lia]|].
    eapply Forall_impl; [exact IH|]. simpl. intros f [H1 H2]. split; [exact H1 | lia].
  - destruct (PyStr.split c s) as [|h t] eqn:Hs; [by destruct (split_nonempty c s)|].
    apply Forall_cons in IH as [[Hh1 Hh2] Ht].
    constructor.
    + simpl. rewrite Hd, Hh1. split; [reflexivity | lia].
    + eapply Forall_impl; [exact Ht|]. simpl. intros f [H1 H2]. split; [exact H1 | lia].
Qed.

Lemma contains_char (c : ascii) (s : string) :
  PyStr.contains (String c EmptyString) s = negb (PyStr2.count c s =? 0)%nat.
Proof.
  induction s as [|d s IH]; [reflexivity|].
  cbn [PyStr.contains PyStr2.count].
  rewrite startswith_cons, startswith_nil, IH, Ascii.eqb_sym.
  destruct (Ascii.eqb d c); [reflexivity|]. simpl. reflexivity.
Qed.

Lemma split_free (c : ascii) (s : string) :
  PyStr2.count c s = 0 -> PyStr.split c s = [s].
Proof.
  induction s as [|d s IH]; [reflexivity|].
  cbn [PyStr.split PyStr2.count].
  destruct (Ascii.eqb d c); [discriminate|]. simpl.
  intros H. by rewrite IH.
Qed.

Lemma split_app_sep (c : ascii) (host rest : string) :
  PyStr2.count c host = 0 ->
  PyStr.split c (host +:+ String c rest) = host :: PyStr.split c rest.
Proof.
  induction host as [|d host IH]; intros H.
  - change (EmptyString +:+ String c rest) with (String c rest).
    cbn [PyStr.split]. by rewrite Ascii.eqb_refl.
  - change (String d host +:+ String c rest) with (String d (host +:+ String c rest)).
    cbn [PyStr.split PyStr2.count] in *.
    destruct (Ascii.eqb d c); [discriminate|]. simpl in H.
    by rewrite IH.
Qed.

Lemma locate_tcp_fields (target : string) :
  PyStr.startswith target "unix:" = false ->
  locate target
  = match (if PyStr.contains ":" (without_scheme target)
           then PyStr.split ":" (without_scheme target)
           else [without_scheme target; "80"]) with
    | [host; port] => inr (without_scheme target, Tcp host port)
    | _ => inl ValueError
    end.
Proof. intros H. unfold locate, without_scheme. by rewrite H. Qed.

(** X4: what [resolve_targets] makes of a target that is not a UNIX socket,
    by the number of colons left once a leading [http://] is gone: without
    a colon the whole is the host and the port is 80; with one colon the
    text before it is the host and the text after it the port; with two or
    more the unpacking of [target.split(":")] raises [ValueError]. *)
Theorem locate_tcp (target : string) :
  PyStr.startswith target "unix:" = false ->
  match PyStr2.count ":" (without_scheme target) with
  | 0 =>
      locate target
      = inr (without_scheme target, Tcp (without_scheme target) "80")
  | 1 =>
      exists host port,
        without_scheme target = host +:+ ":" +:+ port
        /\ PyStr2.count ":" host = 0
        /\ PyStr2.count ":" port = 0
        /\ locate target = inr (without_scheme target, Tcp host port)
  | _ => locate target = inl ValueError
  end.
Proof.
  intros H. rewrite (locate_tcp_fields _ H), contains_char.
  pose proof (split_length ":" (without_scheme target)) as Hlen.
  pose proof (join_split ":" (without_scheme target)) as Hjoin.
  pose proof (split_fields ":" ":" (without_scheme target)) as Hf.
  destruct (PyStr2.count ":" (without_scheme target)) as [|[|n]]; simpl.
  - reflexivity.
  - destruct (PyStr.split ":" (without_scheme target)) as [|host [|port [|x l]]];
      try discriminate.
    apply Forall_cons in Hf as [[Hh _] Hf]. apply Forall_cons in Hf as [[Hp _] _].
    exists host, port. auto.
  - destruct (PyStr.split ":" (without_scheme target)) as [|host [|port [|x l]]];
      (discriminate || reflexivity).
Qed.

(** X5: a target written as [http://host:port], with no colon in the host
    and in the port, is read back as that host and that port, and is stored
    under [host:port]. *)
Theorem locate_host_port (host port : string) :
  PyStr2.count ":" host = 0 ->
  PyStr2.count ":" port = 0 ->
  locate ("http://" +:+ host +:+ ":" +:+ port)
  = inr (host +:+ ":" +:+ port, Tcp host port).
Proof.
  intros Hh Hp.
  rewrite locate_tcp_fields by reflexivity.
  change (without_scheme ("http://" +:+ host +:+ ":" +:+ port))
    with (without_scheme ("http://" +:+ (host +:+ ":" +:+ port))).
  assert (Hw : without_scheme ("http://" +:+ (host +:+ ":" +:+ port))
               = host +:+ ":" +:+ port) by reflexivity.
  rewrite Hw.
  change (host +:+ ":" +:+ port) with (host +:+ String ":" port).
  rewrite contains_char, split_app_sep, (split_free _ _ Hp) by exact Hh.
  pose proof (split_length ":" (host +:+ String ":" port)) as Hlen.
  rewrite split_app_sep, (split_free _ _ Hp) in Hlen by exact Hh.
  simpl in Hlen. injection Hlen as <-. reflexivity.
Qed.

(** X6: an [https://] target is never read as host and port.  Without a
    further colon the host is the scheme [https] and the port the rest,
    slashes included; with a port after the host the unpacking raises
    [ValueError]. *)
Theorem locate_https (rest : string) :
  locate ("https://" +:+ rest)
  = if (PyStr2.count ":" rest =? 0)%nat
    then inr ("https://" +:+ rest, Tcp "https" ("//" +:+ rest))
    else inl ValueError.
Proof.
  rewrite locate_tcp_fields by reflexivity.
  assert (Hw : without_scheme ("https://" +:+ rest) = "https" +:+ String ":" ("//" +:+ rest))
    by reflexivity.
  rewrite Hw, contains_char, split_app_sep by reflexivity.
  pose proof (split_length ":" ("//" +:+ rest)) as Hlen.
  assert (Hc : PyStr2.count ":" ("//" +:+ rest) = PyStr2.count ":" rest) by reflexivity.
  rewrite Hc in Hlen.
  assert (Hone : PyStr2.count ":" ("https" +:+ String ":" ("//" +:+ rest))
                 = S (PyStr2.count ":" rest)) by reflexivity.
  rewrite Hone. simpl negb. cbv iota.
  clear Hlen Hc Hone.
  pose proof (split_length ":" rest) as Hlen.
  destruct (PyStr2.count ":" rest) as [|n] eqn:Hn; simpl;
    change (EmptyString +:+ rest) with rest.
  - rewrite (split_free _ _ Hn). reflexivity.
  - destruct (PyStr.split ":" rest) as [|a [|b l]]; simpl in Hlen; try lia; reflexivity.
Qed.

(** ** More on the loop *)

Section EngineMore.

Variable check_port_usage : list call -> string -> string -> usage.
Variable check_unix_socket_usage : list call -> string -> usage.
Variable get_systemctl_service : list call -> string -> string.
Variable pop_index : state -> nat.

Local Abbreviation body :=
  (loop_body check_port_usage check_unix_socket_usage get_systemctl_service).
Local Abbreviation lookups := (lookup_services get_systemctl_service).
Local Abbreviation probe_at := (probe check_port_usage check_unix_socket_usage).
Local Abbreviation loop :=
  (resolve_loop check_port_usage check_unix_socket_usage get_systemctl_service pop_index).
Local Abbreviation pop := (set_pop pop_index).
Local Abbreviation run :=
  (resolve_targets check_port_usage check_unix_socket_usage get_systemctl_service pop_index).

(** What a turn that returns says about the element it took. *)
Lemma body_element (st st' : state) (popped : target) (rest : list target) :
  body st popped rest = Returned st' ->
  exists key addr extra,
    key_of popped = Some key
    /\ address_of popped = Some addr
    /\ well_formed popped = true
    /\ targets st' = (rest ++ extra)%list
    /\ Forall discovered extra
    /\ dom (details st') = {[key]} ∪ dom (details st)
    /\ probe_calls (calls st') = call_of addr :: probe_calls (calls st).
Proof.
  intros Hb.
  destruct (body_frontier _ _ _ _ _ _ _ Hb) as (extra & Hfr & Hex).
  apply body_Returned in Hb
    as (target & failover & key & addr & services & Hu & Hloc & Hl & _ & Hd & _).
  exists key, addr, extra.
  unfold well_formed, key_of, address_of. rewrite Hu, Hloc.
  repeat split; try assumption; try reflexivity.
  - by rewrite Hd, dom_insert_L.
  - destruct (lookups_calls get_systemctl_service (probe_at (calls st) addr)
                (processed_pids st) (call_of addr :: calls st)) as [pids Hp].
    rewrite Hl in Hp. simpl in Hp. rewrite Hp.
    unfold probe_calls. rewrite omap_app.
    assert (Hnone : omap (fun c => match c with CallService _ => None | _ => Some c end)
                      (CallService <$> pids) = []).
    { clear. induction pids as [|pid pids IH]; [reflexivity | exact IH]. }
    rewrite Hnone. simpl. by destruct addr.
Qed.

Lemma discovered_inert (extra : list target) :
  Forall discovered extra ->
  omap key_of extra = [] /\ omap address_of extra = [].
Proof.
  induction 1 as [|d extra Hd _ [IH1 IH2]]; [done|].
  destruct (discovered_not_unpackable d Hd) as [Hu _].
  unfold unpackable in Hu. simpl. unfold key_of at 1, address_of at 1.
  destruct (unpack d); [done | discriminate].
Qed.

(** An element that cannot be unpacked and located stays in the frontier
    until it is popped, so a run that holds one never returns. *)
Lemma loop_doomed (fuel : nat) :
  forall st d, d ∈ targets st -> well_formed d = false ->
    forall st', loop fuel st <> Returned st'.
Proof.
  induction fuel as [|fuel IH]; intros st d Hd Hw st'; simpl.
  - destruct (pop st) as [[popped rest]|] eqn:Hpop; [discriminate|].
    apply pop_None in Hpop. rewrite Hpop in Hd. by apply elem_of_nil in Hd.
  - destruct (pop st) as [[popped rest]|] eqn:Hpop.
    + destruct (body st popped rest) as [st1|e made|] eqn:Hb; [|discriminate..].
      apply pop_perm in Hpop. rewrite Hpop in Hd.
      destruct (body_element _ _ _ _ Hb) as (key & addr & extra & _ & _ & Hwf & Hfr & _).
      apply elem_of_cons in Hd as [-> | Hd]; [congruence|].
      apply (IH st1 d); [|exact Hw].
      rewrite Hfr. apply elem_of_app. by left.
    + apply pop_None in Hpop. rewrite Hpop in Hd. by apply elem_of_nil in Hd.
Qed.

Lemma run_doomed (fuel : nat) (frontier : list target) (t : target) :
  t ∈ frontier -> well_formed t = false -> pending frontier < fuel ->
  exists e made, run fuel frontier = Raised e made.
Proof.
  intros Hin Hw Hlt. unfold resolve_targets.
  pose proof (loop_terminates check_port_usage check_unix_socket_usage
                get_systemctl_service pop_index fuel (initial frontier) Hlt) as Hne.
  pose proof (loop_doomed fuel (initial frontier) t Hin Hw) as Hnr.
  destruct (loop fuel (initial frontier)) as [st|e made|]; [|eauto|done].
  by destruct (Hnr st).
Qed.

(** X7: one frontier element that cannot be processed (a plain string that
    is not two characters long, a pair without primary, a primary with two
    colons or more) is enough for the whole run to end with an exception,
    whatever the other elements, the pop order and the probes: no result
    map comes back. *)
Theorem malformed_target_never_returns
    (fuel : nat) (frontier : list target) (t : target) :
  t ∈ frontier ->
  well_formed t = false ->
  pending frontier < fuel ->
  exists e made, run fuel frontier = Raised e made.
Proof. apply run_doomed. Qed.

Lemma loop_returned (fuel : nat) :
  forall st st',
    loop fuel st = Returned st' ->
    dom (details st') = dom (details st) ∪ list_to_set (omap key_of (targets st))
    /\ probe_calls (calls st')
       ≡ₚ ((call_of <$> omap address_of (targets st)) ++ probe_calls (calls st))%list.
Proof.
  assert (Hstop : forall st st', pop st = None -> Returned st = Returned st' ->
            dom (details st') = dom (details st) ∪ list_to_set (omap key_of (targets st))
            /\ probe_calls (calls st')
               ≡ₚ ((call_of <$> omap address_of (targets st)) ++ probe_calls (calls st))%list).
  { intros st st' Hpop [= <-]. apply pop_None in Hpop. rewrite Hpop. simpl.
    split; [set_solver | reflexivity]. }
  induction fuel as [|fuel IH]; intros st st'; simpl.
  - destruct (pop st) as [[popped rest]|] eqn:Hpop; [discriminate | by apply Hstop].
  - destruct (pop st) as [[popped rest]|] eqn:Hpop; [|by apply Hstop].
    destruct (body st popped rest) as [st1|e made|] eqn:Hb; [|discriminate..].
    intros Hrun. destruct (IH _ _ Hrun) as (Hdom & Hcalls).
    destruct (body_element _ _ _ _ Hb)
      as (key & addr & extra & Hk & Ha & _ & Hfr & Hex & Hd1 & Hc1).
    destruct (discovered_inert _ Hex) as [Hke Hae].
    apply pop_perm in Hpop.
    rewrite Hfr, omap_app, Hke, app_nil_r in Hdom.
    rewrite Hfr, omap_app, Hae, app_nil_r in Hcalls.
    split.
    + rewrite Hdom, Hd1.
      assert (Hset : list_to_set (omap key_of (targets st))
                     =@{gset string} {[key]} ∪ list_to_set (omap key_of rest)).
      { apply set_eq. intros x. rewrite elem_of_union, elem_of_singleton.
        rewrite !elem_of_list_to_set, !list_elem_of_omap.
        split.
        - intros (t & Ht & Hx). rewrite Hpop in Ht.
          apply elem_of_cons in Ht as [-> | Ht]; [left; congruence | right; eauto].
        - intros [-> | (t & Ht & Hx)].
          + exists popped. split; [rewrite Hpop; by apply elem_of_cons; left | exact Hk].
          + exists t. split; [rewrite Hpop; by apply elem_of_cons; right | exact Hx]. }
      rewrite Hset. set_solver.
    + rewrite Hcalls, Hc1.
      assert (Hperm : omap address_of (targets st) ≡ₚ addr :: omap address_of rest).
      { rewrite Hpop. simpl. by rewrite Ha. }
      rewrite Hperm. simpl.
      by rewrite <- Permutation_middle.
Qed.

(** X8: the result map of a run that returns has exactly the keys of the
    elements the run was given: one entry for each distinct key, none for
    anything else. *)
Theorem details_keys_on_return (fuel : nat) (frontier : list target) (st : state) :
  run fuel frontier = Returned st ->
  dom (details st) = list_to_set (omap key_of frontier).
Proof.
  intros Hrun. apply loop_returned in Hrun as [Hdom _].
  rewrite Hdom. simpl. set_solver.
Qed.

(** X9: in a run that returns, every element it was given has been probed
    exactly once, at the address read from its primary, and nothing else
    has been probed: the probe calls are those addresses, in some order, as
    many as there are elements. *)
Theorem probed_once_on_return (fuel : nat) (frontier : list target) (st : state) :
  run fuel frontier = Returned st ->
  probe_calls (calls st) ≡ₚ call_of <$> omap address_of frontier
  /\ length (probe_calls (calls st)) = length frontier.
Proof.
  intros Hrun.
  assert (Hall : Forall (fun t => well_formed t = true) frontier).
  { apply Forall_forall. intros t Hin.
    destruct (well_formed t) eqn:Hw; [reflexivity|].
    by destruct (loop_doomed fuel (initial frontier) t Hin Hw st). }
  apply loop_returned in Hrun as [_ Hcalls]. simpl in Hcalls.
  rewrite app_nil_r in Hcalls. split; [exact Hcalls|].
  rewrite Hcalls, length_fmap. clear Hcalls.
  induction Hall as [|t l Ht _ IH]; [reflexivity|].
  assert (Hsome : exists addr, address_of t = Some addr).
  { unfold well_formed, key_of in Ht. unfold address_of.
    destruct (unpack t) as [e|[[target|] f]]; try discriminate.
    destruct (locate target) as [e|[key addr]]; [discriminate | eauto]. }
  destruct Hsome as [addr Haddr].
  change (omap address_of (t :: l))
    with (match address_of t with
          | Some a => a :: omap address_of l
          | None => omap address_of l
          end).
  rewrite Haddr. simpl. f_equal. exact IH.
Qed.

Lemma lookups_all_cached (l : list entry) (processed : gset string) (made : list call) :
  (forall pid, EStr pid ∈ l -> pid = EmptyString \/ pid ∈ processed) ->
  lookups (UList l) processed made = (∅, processed, made).
Proof.
  unfold lookup_services. generalize (∅ : gset string) as acc.
  induction l as [|e l IH]; intros acc Hall; [reflexivity|].
  simpl. assert (Hrest : forall pid, EStr pid ∈ l -> pid = EmptyString \/ pid ∈ processed)
    by (intros pid Hp; apply Hall; by apply elem_of_cons; right).
  destruct e as [pid|d]; [|by apply IH].
  destruct (Hall pid) as [-> | Hin]; [by apply elem_of_cons; left | by apply IH |].
  rewrite bool_decide_eq_false_2 by (intros Hn; by apply Hn).
  rewrite andb_false_r. by apply IH.
Qed.

(** X10: a service is attributed only to the first target that reports
    its process.  When every process identifier a probe reports has been
    looked up earlier in the run (or is empty), the turn calls
    [get_systemctl_service] for none of them and stores the record with an
    empty service list. *)
Theorem cached_pids_give_no_service
    (st st' : state) (popped : target) (rest : list target)
    (addr : address) (l : list entry) :
  body st popped rest = Returned st' ->
  address_of popped = Some addr ->
  probe_at (calls st) addr = UList l ->
  (forall pid, EStr pid ∈ l -> pid = EmptyString \/ pid ∈ processed_pids st) ->
  exists key,
    key_of popped = Some key
    /\ details st' !! key = Some (Record_ (UList l) ∅)
    /\ processed_pids st' = processed_pids st
    /\ calls st' = call_of addr :: calls st.
Proof.
  intros Hb Ha Hp Hall.
  apply body_Returned in Hb
    as (target & failover & key & addr' & services & Hu & Hloc & Hl & _ & Hd & _).
  assert (addr' = addr) as ->
    by (unfold address_of in Ha; rewrite Hu, Hloc in Ha; congruence).
  rewrite Hp in Hl, Hd. rewrite lookups_all_cached in Hl by exact Hall.
  injection Hl as <- <- <-.
  exists key. unfold key_of. rewrite Hu, Hloc, Hd, lookup_insert_eq. auto.
Qed.

End EngineMore.

(** ** The configuration readers *)

Lemma rstrip_keeps_prefix (f : ascii -> bool) (p : string) :
  forall s, PyStr.startswith s p = true -> PyStr2.free_of f p = true ->
    PyStr.startswith (PyStr.rstrip_by f s) p = true.
Proof.
  induction p as [|a p IH]; intros s Hs Hf; [apply startswith_nil|].
  destruct s as [|b s]; [discriminate|].
  rewrite startswith_cons in Hs.
  destruct (Ascii.eqb a b) eqn:Hab; [|discriminate].
  apply Ascii.eqb_eq in Hab as <-.
  simpl in Hf. apply andb_true_iff in Hf as [Ha%negb_true_iff Hf].
  cbn [PyStr.rstrip_by]. rewrite Ha, andb_false_r.
  rewrite startswith_cons, Ascii.eqb_refl. by apply IH.
Qed.

Lemma strip_keeps_prefix (f : ascii -> bool) (s p : string) :
  PyStr.startswith s p = true -> PyStr2.free_of f p = true ->
  PyStr.startswith (PyStr.strip_by f s) p = true.
Proof.
  intros Hs Hf. unfold PyStr.strip_by.
  apply rstrip_keeps_prefix; [|exact Hf].
  destruct p as [|a p]; [apply startswith_nil|].
  destruct s as [|b s]; [discriminate|].
  rewrite startswith_cons in Hs.
  destruct (Ascii.eqb a b) eqn:Hab; [|discriminate].
  apply Ascii.eqb_eq in Hab as <-.
  simpl in Hf. apply andb_true_iff in Hf as [Ha%negb_true_iff _].
  cbn [PyStr.lstrip_by]. rewrite Ha.
  by rewrite startswith_cons, Ascii.eqb_refl.
Qed.

Lemma http_string_not_unpackable (s : string) :
  PyStr.startswith s "http" = true -> well_formed (TStr s) = false.
Proof.
  intros H. unfold well_formed, key_of.
  destruct s as [|a [|b [|c s]]]; try reflexivity.
  rewrite !startswith_cons in H.
  destruct (Ascii.eqb "h" a); [|discriminate].
  destruct (Ascii.eqb "t" b); [cbv in H|]; discriminate.
Qed.

Lemma nginx_line_ok (line : string) (acc : gset string * gset string) :
  nginx_ok acc -> nginx_ok (nginx_line line acc).
Proof.
  destruct acc as [targets domains]. unfold nginx_ok. intros Hok t.
  assert (Hfst : (nginx_line line (targets, domains)).1 = targets
                 \/ exists p1, PyStr.startswith p1 "http" = true
                      /\ (nginx_line line (targets, domains)).1
                         = {[PyStr.strip_char ";" p1]} ∪ targets).
  { unfold nginx_line.
    destruct (PyStr.contains "proxy_pass" line); [|by left].
    destruct (PyStr.split_ws line) as [|p0 [|p1 ps]]; try by left.
    destruct (PyStr.startswith p1 "http") eqn:Hp1; [|by left].
    right. by exists p1. }
  destruct Hfst as [-> | (p1 & Hp1 & ->)]; [by apply Hok|].
  intros [->%elem_of_singleton | Ht]%elem_of_union; [|by apply Hok].
  split; [by apply strip_keeps_prefix|].
  unfold PyStr.strip_char.
  pose proof (strip_by_last (Ascii.eqb ";") p1) as Hl.
  destruct (last_char (PyStr.strip_by (Ascii.eqb ";") p1)) as [c|]; [|discriminate].
  intros [= ->]. by rewrite Ascii.eqb_refl in Hl.
Qed.

Lemma nginx_file_ok (lines : list string) :
  forall acc, nginx_ok acc -> nginx_ok (nginx_file lines acc).
Proof.
  unfold nginx_file. induction lines as [|line lines IH]; intros acc Hok; [exact Hok|].
  simpl. by apply IH, nginx_line_ok.
Qed.

Section ReaderFacts.

Variable path_exists : string -> bool.
Variable listdir : string -> exn + list string.
Variable read_lines : string -> exn + list string.

Lemma read_files_keeps {S : Type} (P : S -> Prop) (file : list string -> S -> S)
    (config_dir : string) :
  (forall lines acc, P acc -> P (file lines acc)) ->
  forall filenames acc acc',
    P acc -> read_files read_lines file config_dir filenames acc = inr acc' -> P acc'.
Proof.
  intros Hfile. induction filenames as [|filename rest IH]; intros acc acc' Hacc; simpl.
  - by intros [= <-].
  - destruct (read_lines (path_join config_dir filename)) as [e|lines]; [discriminate|].
    apply IH. by apply Hfile.
Qed.

Lemma read_dirs_keeps {S : Type} (P : S -> Prop) (file : list string -> S -> S) :
  (forall lines acc, P acc -> P (file lines acc)) ->
  forall config_dirs acc acc',
    P acc -> read_dirs path_exists listdir read_lines file config_dirs acc = inr acc' ->
    P acc'.
Proof.
  intros Hfile. induction config_dirs as [|config_dir rest IH]; intros acc acc' Hacc; simpl.
  - by intros [= <-].
  - destruct (path_exists config_dir); [|by apply IH].
    destruct (listdir config_dir) as [e|filenames]; [discriminate|].
    destruct (read_files read_lines file config_dir filenames acc) as [e|acc1] eqn:Hf;
      [discriminate|].
    apply IH. eapply read_files_keeps; eassumption.
Qed.

Lemma read_files_fails {S : Type} (file : list string -> S -> S)
    (config_dir filename : string) (e : exn) :
  read_lines (path_join config_dir filename) = inl e ->
  forall filenames acc,
    filename ∈ filenames ->
    exists e', read_files read_lines file config_dir filenames acc = inl e'.
Proof.
  intros He. induction filenames as [|f rest IH]; intros acc Hin.
  - by apply elem_of_nil in Hin.
  - simpl. destruct (read_lines (path_join config_dir f)) as [e1|lines] eqn:Hf; [eauto|].
    apply elem_of_cons in Hin as [-> | Hin]; [congruence | by apply IH].
Qed.

Lemma read_dirs_fails {S : Type} (file : list string -> S -> S)
    (config_dir filename : string) (filenames : list string) (e : exn) :
  path_exists config_dir = true ->
  listdir config_dir = inr filenames ->
  filename ∈ filenames ->
  read_lines (path_join config_dir filename) = inl e ->
  forall config_dirs acc,
    config_dir ∈ config_dirs ->
    exists e', read_dirs path_exists listdir read_lines file config_dirs acc = inl e'.
Proof.
  intros Hex Hls Hin He. induction config_dirs as [|d rest IH]; intros acc Hd.
  - by apply elem_of_nil in Hd.
  - simpl. destruct (decide (d = config_dir)) as [-> | Hne].
    + rewrite Hex, Hls.
      destruct (read_files_fails file config_dir filename e He filenames acc Hin) as [e' ->].
      eauto.
    + apply elem_of_cons in Hd as [-> | Hd]; [done|].
      destruct (path_exists d); [|by apply IH].
      destruct (listdir d) as [e1|names]; [eauto|].
      destruct (read_files read_lines file d names acc) as [e1|acc1]; [eauto | by apply IH].
Qed.

(** X11: every target the Nginx reader returns begins with [http] and
    does not end with a semicolon; being a plain string of four characters
    or more, it is not an element [resolve_targets] can unpack. *)
Theorem nginx_targets_are_http (targets domains : gset string) (t : string) :
  read_nginx_config path_exists listdir read_lines = inr (targets, domains) ->
  t ∈ targets ->
  PyStr.startswith t "http" = true
  /\ last_char t <> Some ";"%char
  /\ well_formed (TStr t) = false.
Proof.
  intros Hread Hin.
  assert (Hok : nginx_ok (targets, domains)).
  { eapply (read_dirs_keeps nginx_ok nginx_file nginx_file_ok); [|exact Hread].
    intros x Hx. simpl in Hx. by apply not_elem_of_empty in Hx. }
  destruct (Hok t Hin) as [Hh Hl].
  split; [exact Hh|]. split; [exact Hl | by apply http_string_not_unpackable].
Qed.

(** X12: a file that cannot be opened or read is not skipped: if one of
    the directories of a reader exists and lists a file whose reading
    raises, the reader as a whole raises, whatever the other files hold. *)
Theorem unreadable_file_aborts_reader
    (config_dir filename : string) (filenames : list string) (e : exn) :
  path_exists config_dir = true ->
  listdir config_dir = inr filenames ->
  filename ∈ filenames ->
  read_lines (path_join config_dir filename) = inl e ->
  (config_dir ∈ ["/etc/nginx/sites-enabled"; "/etc/nginx/conf.d"] ->
   exists e', read_nginx_config path_exists listdir read_lines = inl e')
  /\ (config_dir ∈ ["/etc/apache2/sites-enabled"; "/etc/apache2/conf-enabled"] ->
      exists e', read_apache_config path_exists listdir read_lines = inl e').
Proof.
  intros Hex Hls Hin He. split; intros Hd; eapply read_dirs_fails; eassumption.
Qed.

End ReaderFacts.

(** ** The Apache reader *)

(** An assignment to a key of the file's [_info], with more targets and
    domains collected, keeps what holds while the file is read. *)
Lemma reading_update (cur : nat) (st0 st : apache) (f : info -> info)
    (T : gset (option string * option string)) (D : gset string) :
  apache_reading cur st0 st ->
  a_targets st ⊆ T ->
  (forall i t, proxypass (f i) = Some t -> proxypass i = Some t \/ t ∈ T) ->
  apache_reading cur st0 (Apache T D (a_infos st) (alter f cur (a_heap st))).
Proof.
  intros ([Hinfos Hheap] & Hlen & Hpre & Hnew & Hsub) HT Hf.
  repeat split; simpl.
  - destruct (Hinfos k id H) as [[b Hb] _]. exists b. by apply HT.
  - destruct (Hinfos k id H) as [_ Hs]. apply lookup_lt_is_Some.
    rewrite length_alter. by apply lookup_lt_is_Some.
  - intros id i t Hi Hp. destruct (decide (cur = id)) as [<- | Hne].
    + rewrite list_lookup_alter_eq in Hi.
      destruct (a_heap st !! cur) as [i0|] eqn:Hi0; [|discriminate].
      injection Hi as <-. destruct (Hf i0 t Hp) as [Hold | Hin]; [|exact Hin].
      apply HT. by eapply Hheap.
    + rewrite list_lookup_alter_ne in Hi by exact Hne. apply HT. by eapply Hheap.
  - by rewrite length_alter.
  - intros j Hj. rewrite list_lookup_alter_ne by lia. by apply Hpre.
  - exact Hnew.
  - by etrans.
Qed.

Lemma reading_proxypass (cur : nat) (line : string) (st0 st : apache) :
  apache_reading cur st0 st -> apache_reading cur st0 (directive_proxypass cur line st).
Proof.
  intros H. unfold directive_proxypass.
  destruct (PyStr.contains "ProxyPass" line); [|exact H].
  cbv zeta. unfold update_info. cbn [a_targets a_domains a_infos a_heap].
  apply reading_update; [exact H | set_solver |].
  simpl. intros i t [= <-]. right. set_solver.
Qed.

Lemma reading_servername (cur : nat) (line : string) (st0 st : apache) :
  apache_reading cur st0 st -> apache_reading cur st0 (directive_servername cur line st).
Proof.
  intros H. unfold directive_servername.
  destruct (PyStr.contains "ServerName" line); [|exact H].
  destruct (PyStr.split_ws line) as [|p0 [|p1 ps]]; try exact H.
  cbv zeta. unfold update_info. cbn [a_targets a_domains a_infos a_heap].
  apply reading_update; [exact H | done | auto].
Qed.

Lemma reading_serveralias (cur : nat) (line : string) (st0 st : apache) :
  apache_reading cur st0 st -> apache_reading cur st0 (directive_serveralias cur line st).
Proof.
  intros H. unfold directive_serveralias.
  destruct (PyStr.contains "ServerAlias" line); [|exact H].
  destruct (PyStr.split_ws line) as [|p0 [|p1 ps]]; try exact H.
  cbv zeta. unfold update_info. cbn [a_targets a_domains a_infos a_heap].
  apply reading_update; [exact H | done | auto].
Qed.

Lemma reading_close (cur : nat) (st0 st : apache) :
  apache_reading cur st0 st -> apache_reading cur st0 (apache_close cur st).
Proof.
  intros H. unfold apache_close.
  destruct (a_heap st !! cur) as [i|] eqn:Hi; [|exact H].
  destruct (proxypass i) as [t|] eqn:Ht; [|exact H].
  destruct H as ([Hinfos Hheap] & Hlen & Hpre & Hnew & Hsub).
  repeat split; simpl in *; try assumption.
  - destruct (decide (t.1 = k)) as [<- | Hne].
    + exists t.2. destruct t as [t1 t2]. simpl. by eapply Hheap.
    + rewrite lookup_insert_ne in H by exact Hne. by destruct (Hinfos k id H).
  - destruct (decide (t.1 = k)) as [<- | Hne].
    + rewrite lookup_insert_eq in H. injection H as <-. eauto.
    + rewrite lookup_insert_ne in H by exact Hne. by destruct (Hinfos k id H).
  - intros k id. destruct (decide (t.1 = k)) as [<- | Hne].
    + rewrite lookup_insert_eq. intros [= <-]. by right.
    + rewrite lookup_insert_ne by exact Hne. apply Hnew.
Qed.

Lemma reading_line (cur : nat) (line : string) (st0 : apache) (s : bool * apache) :
  apache_reading cur st0 s.2 -> apache_reading cur st0 (apache_line cur line s).2.
Proof.
  destruct s as [in_virtual_host st]. simpl. intros H. unfold apache_line.
  set (b := (if PyStr.startswith (PyStr.strip line) "<VirtualHost"
             then true else in_virtual_host)
            && negb (PyStr.startswith (PyStr.strip line) "#")).
  assert (Hd : apache_reading cur st0 (apache_directives cur (reconstruct_line line) st))
    by (by apply reading_serveralias, reading_servername, reading_proxypass).
  destruct b.
  - destruct (PyStr.startswith (PyStr.strip (reconstruct_line line)) "</VirtualHost>");
      simpl; [by apply reading_close | exact Hd].
  - destruct (PyStr.startswith (PyStr.strip line) "</VirtualHost>");
      simpl; [by apply reading_close | exact H].
Qed.

Lemma reading_lines (cur : nat) (st0 : apache) (lines : list string) :
  forall s, apache_reading cur st0 s.2 ->
    apache_reading cur st0 (foldl (fun s line => apache_line cur line s) s lines).2.
Proof.
  induction lines as [|line lines IH]; intros s H; [exact H|].
  simpl. by apply IH, reading_line.
Qed.

Lemma reading_file (lines : list string) (st : apache) :
  apache_ok st ->
  apache_reading (length (a_heap st)) st (apache_file lines st).
Proof.
  intros [Hinfos Hheap]. unfold apache_file. apply reading_lines. simpl.
  repeat split; simpl.
  - by destruct (Hinfos k id H).
  - destruct (Hinfos k id H) as [_ [i Hi]]. exists i. by apply lookup_app_l_Some.
  - intros id i t Hi Hp.
    apply lookup_app_Some in Hi as [Hi | [_ Hi]]; [by eapply Hheap|].
    destruct (id - length (a_heap st)) as [|n]; [|done].
    injection Hi as <-. discriminate.
  - rewrite length_app. simpl. lia.
  - intros j Hj. by apply lookup_app_l.
  - auto.
  - done.
Qed.

Lemma apache_file_ok (lines : list string) (st : apache) :
  apache_ok st -> apache_ok (apache_file lines st).
Proof. intros H. by destruct (reading_file lines st H). Qed.

(** X13: the dicts stored in [infos] while one file is read are one and
    the same object.  After a file, every entry of [infos] is an entry from
    before or refers to the file's single [_info]; the objects of earlier
    files are untouched.  Two virtual hosts of one file therefore share
    their name, alias and proxypass in [infos]: those read last. *)
Theorem apache_file_shares_info (lines : list string) (st : apache) :
  apache_ok st ->
  (forall k id, a_infos (apache_file lines st) !! k = Some id ->
     a_infos st !! k = Some id \/ id = length (a_heap st))
  /\ length (a_heap (apache_file lines st)) = S (length (a_heap st))
  /\ (forall j, j < length (a_heap st) ->
        a_heap (apache_file lines st) !! j = a_heap st !! j).
Proof.
  intros H. destruct (reading_file lines st H) as (_ & Hlen & Hpre & Hnew & _). auto.
Qed.

(** X14: a file in which no line opens a virtual host adds no target, no
    domain and no entry of [infos], whatever directives it holds. *)
Theorem apache_file_without_virtual_host (lines : list string) (st : apache) :
  Forall (fun line => PyStr.startswith (PyStr.strip line) "<VirtualHost" = false) lines ->
  apache_file lines st
  = Apache (a_targets st) (a_domains st) (a_infos st) (a_heap st ++ [empty_info]).
Proof.
  intros Hall. unfold apache_file.
  set (st1 := Apache (a_targets st) (a_domains st) (a_infos st) (a_heap st ++ [empty_info])).
  assert (Hfix : foldl (fun s line => apache_line (length (a_heap st)) line s)
                   (false, st1) lines = (false, st1)); [|by rewrite Hfix].
  assert (Hclose : apache_close (length (a_heap st)) st1 = st1).
  { unfold apache_close, st1. simpl.
    by rewrite lookup_app_r, Nat.sub_diag by lia. }
  induction Hall as [|line lines Hline _ IH]; [reflexivity|].
  assert (Hstep : apache_line (length (a_heap st)) line (false, st1) = (false, st1)).
  { unfold apache_line. rewrite Hline. simpl. rewrite Hclose.
    by destruct (PyStr.startswith (PyStr.strip line) "</VirtualHost>"). }
  cbn [foldl]. rewrite Hstep. exact IH.
Qed.

Lemma directives_targets (cur : nat) (line : string) (st : apache) :
  a_targets (apache_directives cur line st)
  = if PyStr.contains "ProxyPass" line
    then {[proxypass_target line]} ∪ a_targets st
    else a_targets st.
Proof.
  unfold apache_directives, directive_serveralias, directive_servername,
    directive_proxypass.
  destruct (PyStr.contains "ProxyPass" line), (PyStr.contains "ServerName" line),
    (PyStr.contains "ServerAlias" line);
    destruct (PyStr.split_ws line) as [|p0 [|p1 ps]]; reflexivity.
Qed.

Lemma unqualified_line (line : string) :
  Forall (fun part => qualifies part = false) (PyStr.split_ws line) ->
  proxypass_target line = (None, None).
Proof.
  intros Hall.
  destruct (proxypass_parts_scan (PyStr.split_ws line))
    as [[_ H] | (pre & part & post & r & Hparts & _ & Hp & _)]; [exact H|].
  rewrite Hparts in Hall. apply Forall_app in Hall as [_ Hall].
  apply Forall_cons in Hall as [Hq _].
  apply proxypass_part_None in Hq. congruence.
Qed.

Section ApacheFacts.

Variable path_exists : string -> bool.
Variable listdir : string -> exn + list string.
Variable read_lines : string -> exn + list string.

Lemma read_apache_config_ok (st : apache) :
  read_apache_config path_exists listdir read_lines = inr st -> apache_ok st.
Proof.
  intros Hread.
  eapply (read_dirs_keeps path_exists listdir read_lines apache_ok apache_file apache_file_ok);
    [|exact Hread].
  split; [intros k id H | intros id i t H]; simpl in H.
  - by rewrite lookup_empty in H.
  - by rewrite lookup_nil in H.
Qed.

(** X15: every key of the [infos] the Apache reader returns is the
    primary of a target it returns, and refers to a dict whose [proxypass]
    is among the returned targets: [main] never holds domain information
    for an address that is not resolved. *)
Theorem apache_infos_have_targets (st : apache) (k : option string) (id : nat) :
  read_apache_config path_exists listdir read_lines = inr st ->
  a_infos st !! k = Some id ->
  (exists b, (k, b) ∈ a_targets st)
  /\ exists i, a_heap st !! id = Some i
       /\ forall t, proxypass i = Some t -> t ∈ a_targets st.
Proof.
  intros Hread Hk. destruct (read_apache_config_ok st Hread) as [Hinfos Hheap].
  destruct (Hinfos k id Hk) as [Hb [i Hi]].
  split; [exact Hb|]. exists i. split; [exact Hi|]. intros t. by apply (Hheap id).
Qed.

End ApacheFacts.

(** ** From the readers to the loop *)

Section Pipeline.

Variable path_exists : string -> bool.
Variable listdir : string -> exn + list string.
Variable read_lines : string -> exn + list string.
Variable check_port_usage : list call -> string -> string -> usage.
Variable check_unix_socket_usage : list call -> string -> usage.
Variable get_systemctl_service : list call -> string -> string.
Variable pop_index : state -> nat.

Local Abbreviation run :=
  (resolve_targets check_port_usage check_unix_socket_usage get_systemctl_service pop_index).

(** X16: a target collected from an Nginx configuration makes
    [resolve_targets] fail: whatever else the frontier holds, the run ends
    with an exception and returns no result map. *)
Theorem nginx_target_aborts_run
    (targets domains : gset string) (t : string) (frontier : list target) (fuel : nat) :
  read_nginx_config path_exists listdir read_lines = inr (targets, domains) ->
  t ∈ targets ->
  TStr t ∈ frontier ->
  pending frontier < fuel ->
  exists e made, run fuel frontier = Raised e made.
Proof.
  intros Hread Hin Hfr Hlt.
  assert (Hok : nginx_ok (targets, domains)).
  { eapply (read_dirs_keeps path_exists listdir read_lines nginx_ok nginx_file nginx_file_ok);
      [|exact Hread].
    intros x Hx. simpl in Hx. by apply not_elem_of_empty in Hx. }
  destruct (Hok t Hin) as [Hh _].
  eapply run_doomed; [exact Hfr | by apply http_string_not_unpackable | exact Hlt].
Qed.

(** X17: a [ProxyPass] directive in which no part carries a [|] or a
    quoted [http] or [unix:] value, an unquoted URL for instance, puts the
    pair [(None, None)] among the targets, and a frontier that holds this
    pair makes [resolve_targets] end with an exception. *)
Theorem unquoted_proxypass_aborts_run
    (cur : nat) (line : string) (st : apache) (frontier : list target) (fuel : nat) :
  PyStr.contains "ProxyPass" line = true ->
  Forall (fun part => qualifies part = false) (PyStr.split_ws line) ->
  TPair None None ∈ frontier ->
  pending frontier < fuel ->
  (None, None) ∈ a_targets (apache_directives cur line st)
  /\ exists e made, run fuel frontier = Raised e made.
Proof.
  intros Hc Hall Hfr Hlt. split.
  - rewrite directives_targets, Hc, (unqualified_line _ Hall).
    apply elem_of_union. left. by apply elem_of_singleton.
  - eapply run_doomed; [exact Hfr | reflexivity | exact Hlt].
Qed.

End Pipeline.

(** ** An empty answer of [lsof] *)

Section BlankProbe.

Variable subprocess_run : list call -> list string -> string + string.

Local Abbreviation own_body :=
  (loop_body (OS.check_port_usage subprocess_run)
             (OS.check_unix_socket_usage subprocess_run)
             (OS.get_systemctl_service subprocess_run)).

(** X18: when [lsof] prints nothing but white space for a TCP target, the
    probe result is the list holding one empty string; the turn looks up no
    service, discovers nothing and stores that list with no service name. *)
Theorem blank_probe_output
    (st : state) (popped : target) (rest : list target)
    (target : string) (failover : option string) (key host port stdout : string) :
  unpack popped = inr (Some target, failover) ->
  locate target = inr (key, Tcp host port) ->
  subprocess_run (calls st) ["sudo"; "lsof"; "-t"; "-i"; "@" +:+ host +:+ ":" +:+ port]
  = inl stdout ->
  PyStr.strip stdout = EmptyString ->
  OS.check_port_usage subprocess_run (calls st) host port = UList [EStr EmptyString]
  /\ erase_log (own_body st popped rest)
     = Returned (State rest ({[target]} ∪ visited st)
                   (<[key := Record_ (UList [EStr EmptyString]) ∅]> (details st))
                   (processed_pids st) (CallPort host port :: calls st) []).
Proof.
  intros Hu Hloc Hrun Hblank.
  assert (Hp : OS.check_port_usage subprocess_run (calls st) host port
               = UList [EStr EmptyString]).
  { unfold OS.check_port_usage, OS.run. rewrite Hrun. simpl.
    unfold OS.lines_of. by rewrite Hblank. }
  split; [exact Hp|].
  unfold loop_body. rewrite Hu, Hloc. cbn [probe call_of]. rewrite Hp.
  reflexivity.
Qed.

End BlankProbe.

(** ** The service identifier and [check_process_usage] *)

Lemma count_append (c : ascii) (s1 s2 : string) :
  PyStr2.count c (s1 +:+ s2) = PyStr2.count c s1 + PyStr2.count c s2.
Proof. induction s1 as [|d s1 IH]; simpl; [reflexivity | rewrite IH; lia]. Qed.

Lemma lstrip_count (f : ascii -> bool) (c : ascii) (s : string) :
  PyStr2.count c (PyStr.lstrip_by f s) <= PyStr2.count c s.
Proof.
  induction s as [|d s IH]; simpl; [lia|].
  destruct (f d); simpl; lia.
Qed.

Lemma rstrip_count (f : ascii -> bool) (c : ascii) (s : string) :
  PyStr2.count c (PyStr.rstrip_by f s) <= PyStr2.count c s.
Proof.
  induction s as [|d s IH]; simpl; [lia|].
  destruct (PyStr.is_empty (PyStr.rstrip_by f s) && f d); simpl; lia.
Qed.

Lemma strip_count (f : ascii -> bool) (c : ascii) (s : string) :
  PyStr2.count c (PyStr.strip_by f s) <= PyStr2.count c s.
Proof.
  unfold PyStr.strip_by.
  pose proof (rstrip_count f c (PyStr.lstrip_by f s)).
  pose proof (lstrip_count f c s). lia.
Qed.

(** X19: a unit name that [parse_systemctl_service_status] returns holds no
    space and no newline, and the status it returns is [unknown] or a text
    without colon and without white space at either end. *)
Theorem parse_systemctl_service_status_shape (status service_name service_status : string) :
  OS.parse_systemctl_service_status status = inr (service_name, service_status) ->
  PyStr2.count " " service_name = 0
  /\ PyStr2.count "010" service_name = 0
  /\ (service_status = "unknown"
      \/ (PyStr2.count ":" service_status = 0
          /\ match service_status with
             | EmptyString => True
             | String c _ => PyStr.isspace c = false
             end
          /\ match last_char service_status with
             | None => True
             | Some c => PyStr.isspace c = false
             end)).
Proof.
  unfold OS.parse_systemctl_service_status, OS.index. intros H.
  pose proof (split_fields "010" "010" status) as Hlines.
  destruct (PyStr.split "010" status) as [|line0 lines]; [discriminate|].
  apply Forall_cons in Hlines as [[Hl0 _] _]. simpl in H.
  pose proof (split_fields " " "010" line0) as Hfields.
  destruct (PyStr.split " " line0) as [|f0 [|f1 fs]]; try discriminate. simpl in H.
  apply Forall_cons in Hfields as [_ Hfields].
  apply Forall_cons in Hfields as [[Hsp Hnl] _].
  assert (Hname : service_name = f1 -> PyStr2.count " " service_name = 0
                                       /\ PyStr2.count "010" service_name = 0)
    by (intros ->; split; [exact Hsp | lia]).
  destruct lines as [|line1 [|line2 lines]]; simpl in H;
    try (injection H as <- <-; split; [by apply Hname|]; split; [by apply Hname | by left]).
  destruct (PyStr.contains ":" line2);
    [|injection H as <- <-; split; [by apply Hname|]; split; [by apply Hname | by left]].
  pose proof (split_fields ":" ":" line2) as Hst.
  destruct (PyStr.split ":" line2) as [|s0 [|s1 ss]]; try discriminate. simpl in H.
  apply Forall_cons in Hst as [_ Hst]. apply Forall_cons in Hst as [[Hcol _] _].
  injection H as <- <-.
  split; [by apply Hname|]. split; [by apply Hname|]. right.
  split; [|split].
  - pose proof (strip_count PyStr.isspace ":" s1). unfold PyStr.strip. lia.
  - apply (strip_by_head PyStr.isspace s1).
  - apply (strip_by_last PyStr.isspace s1).
Qed.

(** X20: [check_process_usage] lets no exception through: a failure of
    [subprocess.run] comes back as the text [Error checking process ...],
    and an output comes back without white space at either end. *)
Theorem check_process_usage_result
    (subprocess_run : list call -> list string -> string + string)
    (history : list call) (process_name : string) :
  match subprocess_run history ["pgrep"; "-a"; process_name] with
  | inr msg =>
      check_process_usage subprocess_run history process_name
      = "Error checking process " +:+ process_name +:+ ": " +:+ msg
  | inl stdout =>
      check_process_usage subprocess_run history process_name = PyStr.strip stdout
      /\ match check_process_usage subprocess_run history process_name with
         | EmptyString => True
         | String c _ => PyStr.isspace c = false
         end
      /\ match last_char (check_process_usage subprocess_run history process_name) with
         | None => True
         | Some c => PyStr.isspace c = false
         end
  end.
Proof.
  unfold check_process_usage, OS.run.
  destruct (subprocess_run history _) as [stdout|msg]; simpl; [|reflexivity].
  split; [reflexivity|]. split.
  - apply (strip_by_head PyStr.isspace stdout).
  - apply (strip_by_last PyStr.isspace stdout).
Qed.

(** ** The report *)

Lemma append_longer (p s : string) : p <> EmptyString -> s <> p +:+ s.
Proof.
  intros Hp Heq. apply (f_equal String.length) in Heq.
  rewrite length_append in Heq. destruct p; [done|]. simpl in Heq. lia.
Qed.

(** X21: [main] finds the domain information of a target given as
    [http://...] only when what follows the scheme ends with a slash: the
    target is stored without the scheme, and the scheme is put back for the
    lookup in [infos] exactly in that case. *)
Theorem report_key_round_trip (rest key : string) (addr : address) :
  locate ("http://" +:+ rest) = inr (key, addr) ->
  key = rest
  /\ if PyStr2.endswith rest "/"
     then report_key key = "http://" +:+ rest
     else report_key key <> "http://" +:+ rest.
Proof.
  intros Hloc. rewrite locate_tcp_fields in Hloc by reflexivity.
  assert (Hw : without_scheme ("http://" +:+ rest) = rest) by reflexivity.
  rewrite Hw in Hloc.
  assert (key = rest) as ->.
  { destruct (if PyStr.contains ":" rest then PyStr.split ":" rest else [rest; "80"])
      as [|h [|p [|x l]]]; congruence. }
  split; [reflexivity|]. unfold report_key.
  destruct (PyStr2.endswith rest "/"); [reflexivity|].
  by apply append_longer.
Qed.

(** X22: the list [main] prints for a target is the alias list stored in
    [infos] itself, and the name is appended to it in place.  When two
    targets refer to the same dict, or one is reported twice, the second
    list holds the name twice. *)
Theorem associated_domains_appends_in_place
    (infos : gmap (option string) nat) (heap : list info) (target1 target2 : string)
    (id : nat) (pp : option (option string * option string))
    (n : string) (names : list string) :
  infos !! Some target1 = Some id ->
  infos !! Some target2 = Some id ->
  heap !! id = Some (Info pp (Some n) (Some names)) ->
  exists heap1 heap2,
    associated_domains infos heap target1 = inr ((names ++ [n])%list, heap1)
    /\ heap1 !! id = Some (Info pp (Some n) (Some (names ++ [n])%list))
    /\ associated_domains infos heap1 target2 = inr ((names ++ [n; n])%list, heap2).
Proof.
  intros H1 H2 Hid.
  assert (Hlt : id < length heap) by (by eapply lookup_lt_Some).
  eexists _, _. unfold associated_domains.
  rewrite H1, Hid. simpl. split; [reflexivity|].
  rewrite list_lookup_insert_eq by exact Hlt.
  split; [reflexivity|].
  rewrite H2, list_lookup_insert_eq by exact Hlt. simpl.
  by rewrite <- app_assoc.
Qed.

(** ** Worked inputs for the statements above *)

Lemma locate_tcp_witness :
  PyStr.startswith "http://example.internal" "unix:" = false
  /\ locate "http://example.internal"
     = inr ("example.internal", Tcp "example.internal" "80").
Proof.
  split; [reflexivity|].
  exact (locate_tcp "http://example.internal" eq_refl).
Defined.

Lemma locate_host_port_witness :
  PyStr2.count ":" "127.0.0.1" = 0
  /\ PyStr2.count ":" "8080" = 0
  /\ locate ("http://" +:+ "127.0.0.1" +:+ ":" +:+ "8080")
     = inr ("127.0.0.1" +:+ ":" +:+ "8080", Tcp "127.0.0.1" "8080").
Proof.
  split; [reflexivity|]. split; [reflexivity|].
  apply (locate_host_port "127.0.0.1" "8080"); reflexivity.
Defined.

Lemma malformed_target_never_returns_witness :
  TPair None None ∈ [Script.backend_7001; TPair None None]
  /\ well_formed (TPair None None) = false
  /\ pending [Script.backend_7001; TPair None None] < 3
  /\ exists e made,
       own_run Script.host Script.oldest 3 [Script.backend_7001; TPair None None]
       = Raised e made.
Proof.
  assert (Hin : TPair None None ∈ [Script.backend_7001; TPair None None])
    by (apply elem_of_cons; right; apply elem_of_cons; by left).
  assert (Hlt : pending [Script.backend_7001; TPair None None] < 3)
    by (vm_compute; lia).
  split; [exact Hin|]. split; [reflexivity|]. split; [exact Hlt|].
  exact (malformed_target_never_returns _ _ _ Script.oldest 3 _ _ Hin eq_refl Hlt).
Defined.

Lemma details_keys_on_return_witness :
  own_run Script.host Script.oldest 2 [Script.app_sock; Script.app_sock_failover]
  = Returned Script.after_app_sock_failover
  /\ dom (details Script.after_app_sock_failover)
     = list_to_set (omap key_of [Script.app_sock; Script.app_sock_failover]).
Proof.
  assert (H : own_run Script.host Script.oldest 2
                [Script.app_sock; Script.app_sock_failover]
              = Returned Script.after_app_sock_failover) by (vm_compute; reflexivity).
  split; [exact H|].
  exact (details_keys_on_return _ _ _ _ _ _ _ H).
Defined.

Lemma probed_once_on_return_witness :
  own_run Script.host Script.oldest 2 [Script.app_sock; Script.app_sock_failover]
  = Returned Script.after_app_sock_failover
  /\ length (probe_calls (calls Script.after_app_sock_failover)) = 2.
Proof.
  assert (H : own_run Script.host Script.oldest 2
                [Script.app_sock; Script.app_sock_failover]
              = Returned Script.after_app_sock_failover) by (vm_compute; reflexivity).
  split; [exact H|].
  exact (proj2 (probed_once_on_return _ _ _ _ _ _ _ H)).
Defined.

Lemma cached_pids_give_no_service_witness :
  loop_body (OS.check_port_usage Script.host) (OS.check_unix_socket_usage Script.host)
    (OS.get_systemctl_service Script.host)
    Script2.after_7001 Script2.backend_7002 []
  = Returned Script2.after_7002
  /\ exists key,
       key_of Script2.backend_7002 = Some key
       /\ details Script2.after_7002 !! key = Some (Record_ (UList [EStr "4242"]) ∅)
       /\ processed_pids Script2.after_7002 = processed_pids Script2.after_7001
       /\ calls Script2.after_7002
          = call_of (Tcp "127.0.0.1" "7002") :: calls Script2.after_7001.
Proof.
  assert (H : loop_body (OS.check_port_usage Script.host)
                (OS.check_unix_socket_usage Script.host)
                (OS.get_systemctl_service Script.host)
                Script2.after_7001 Script2.backend_7002 []
              = Returned Script2.after_7002) by (vm_compute; reflexivity).
  split; [exact H|].
  apply (cached_pids_give_no_service _ _ _ _ _ _ _ (Tcp "127.0.0.1" "7002")
           [EStr "4242"] H); [reflexivity | vm_compute; reflexivity |].
  intros pid Hpid. right.
  apply list_elem_of_singleton in Hpid. injection Hpid as ->.
  vm_compute. reflexivity.
Defined.

(** The Nginx reader on [Script3.nginx_conf]: the target loses its
    semicolon, the last server name keeps it. *)
Example nginx_read :
  read_nginx_config Script3.sites_enabled Script3.one_file Script3.nginx_disk
  = inr ({["http://127.0.0.1:8080"]}, {["example.com"; "www.example.com;"]}).
Proof. vm_compute. reflexivity. Qed.

Lemma nginx_targets_are_http_witness :
  read_nginx_config Script3.sites_enabled Script3.one_file Script3.nginx_disk
  = inr ({["http://127.0.0.1:8080"]}, {["example.com"; "www.example.com;"]})
  /\ PyStr.startswith "http://127.0.0.1:8080" "http" = true
  /\ last_char "http://127.0.0.1:8080" <> Some ";"%char
  /\ well_formed (TStr "http://127.0.0.1:8080") = false.
Proof.
  assert (H : read_nginx_config Script3.sites_enabled Script3.one_file Script3.nginx_disk
              = inr ({["http://127.0.0.1:8080"]}, {["example.com"; "www.example.com;"]}))
    by (vm_compute; reflexivity).
  split; [exact H|].
  apply (nginx_targets_are_http _ _ _ _ _ "http://127.0.0.1:8080" H).
  vm_compute. reflexivity.
Defined.

Lemma unreadable_file_aborts_reader_witness :
  Script3.sites_enabled "/etc/nginx/sites-enabled" = true
  /\ "site.conf" ∈ ["site.conf"]
  /\ exists e', read_nginx_config Script3.sites_enabled Script3.one_file Script3.locked_disk
                = inl e'.
Proof.
  assert (Hin : "site.conf" ∈ ["site.conf"]) by (apply elem_of_cons; by left).
  split; [reflexivity|]. split; [exact Hin|].
  apply (proj1 (unreadable_file_aborts_reader Script3.sites_enabled Script3.one_file
                  Script3.locked_disk "/etc/nginx/sites-enabled" "site.conf" ["site.conf"]
                  (OSError "[Errno 13] Permission denied")
                  eq_refl eq_refl Hin eq_refl)).
  apply elem_of_cons. by left.
Defined.

Lemma apache_start_ok : apache_ok (Apache ∅ ∅ ∅ []).
Proof.
  split; [intros k id H | intros id i t H]; simpl in H.
  - by rewrite lookup_empty in H.
  - by rewrite lookup_nil in H.
Defined.

Lemma apache_file_shares_info_witness :
  apache_ok (Apache ∅ ∅ ∅ [])
  /\ length (a_heap (apache_file Script3.apache_conf (Apache ∅ ∅ ∅ []))) = 1.
Proof.
  split; [exact apache_start_ok|].
  exact (proj1 (proj2 (apache_file_shares_info Script3.apache_conf (Apache ∅ ∅ ∅ [])
                         apache_start_ok))).
Defined.

(** The two virtual hosts of [Script3.apache_conf]: both keys of [infos]
    refer to the one dict, which holds the second host's name with the
    first host's alias. *)
Example apache_file_two_hosts :
  apache_file Script3.apache_conf (Apache ∅ ∅ ∅ []) = Script3.apache_result.
Proof. vm_compute. reflexivity. Qed.

Lemma apache_file_without_virtual_host_witness :
  Forall (fun line => PyStr.startswith (PyStr.strip line) "<VirtualHost" = false)
         Script3.global_conf
  /\ apache_file Script3.global_conf (Apache ∅ ∅ ∅ [])
     = Apache ∅ ∅ ∅ [empty_info].
Proof.
  assert (H : Forall (fun line => PyStr.startswith (PyStr.strip line) "<VirtualHost" = false)
                Script3.global_conf)
    by (repeat (constructor; [vm_compute; reflexivity|]); constructor).
  split; [exact H|].
  exact (apache_file_without_virtual_host Script3.global_conf (Apache ∅ ∅ ∅ []) H).
Defined.

Lemma apache_infos_have_targets_witness :
  read_apache_config Script3.sites_enabled Script3.one_file Script3.apache_disk
  = inr Script3.apache_result
  /\ a_infos Script3.apache_result !! Some "unix:/run/b.sock" = Some 0
  /\ exists b, (Some "unix:/run/b.sock", b) ∈ a_targets Script3.apache_result.
Proof.
  assert (H : read_apache_config Script3.sites_enabled Script3.one_file Script3.apache_disk
              = inr Script3.apache_result) by (vm_compute; reflexivity).
  assert (Hk : a_infos Script3.apache_result !! Some "unix:/run/b.sock" = Some 0)
    by (vm_compute; reflexivity).
  split; [exact H|]. split; [exact Hk|].
  exact (proj1 (apache_infos_have_targets _ _ _ _ _ _ H Hk)).
Defined.

Lemma nginx_target_aborts_run_witness :
  read_nginx_config Script3.sites_enabled Script3.one_file Script3.nginx_disk
  = inr ({["http://127.0.0.1:8080"]}, {["example.com"; "www.example.com;"]})
  /\ pending [TStr "http://127.0.0.1:8080"; Script.backend_7001] < 3
  /\ exists e made,
       own_run Script.host Script.oldest 3
         [TStr "http://127.0.0.1:8080"; Script.backend_7001]
       = Raised e made.
Proof.
  assert (H : read_nginx_config Script3.sites_enabled Script3.one_file Script3.nginx_disk
              = inr ({["http://127.0.0.1:8080"]}, {["example.com"; "www.example.com;"]}))
    by (vm_compute; reflexivity).
  assert (Hlt : pending [TStr "http://127.0.0.1:8080"; Script.backend_7001] < 3)
    by (vm_compute; lia).
  split; [exact H|]. split; [exact Hlt|].
  apply (nginx_target_aborts_run Script3.sites_enabled Script3.one_file Script3.nginx_disk
           (OS.check_port_usage Script.host) (OS.check_unix_socket_usage Script.host)
           (OS.get_systemctl_service Script.host) Script.oldest
           _ _ "http://127.0.0.1:8080" _ 3 H); [vm_compute; reflexivity | | exact Hlt].
  apply elem_of_cons. by left.
Defined.

Lemma unquoted_proxypass_aborts_run_witness :
  PyStr.contains "ProxyPass" "ProxyPass / http://127.0.0.1:8080/" = true
  /\ Forall (fun part => qualifies part = false)
            (PyStr.split_ws "ProxyPass / http://127.0.0.1:8080/")
  /\ (None, None) ∈ a_targets (apache_directives 0 "ProxyPass / http://127.0.0.1:8080/"
                                  (Apache ∅ ∅ ∅ [empty_info]))
  /\ exists e made,
       own_run Script.host Script.oldest 2 [TPair None None] = Raised e made.
Proof.
  assert (Hall : Forall (fun part => qualifies part = false)
                   (PyStr.split_ws "ProxyPass / http://127.0.0.1:8080/"))
    by (vm_compute; repeat (constructor; [reflexivity|]); constructor).
  assert (Hin : TPair None None ∈ [TPair None None]) by (apply elem_of_cons; by left).
  assert (Hlt : pending [TPair None None] < 2) by (vm_compute; lia).
  split; [reflexivity|]. split; [exact Hall|].
  exact (unquoted_proxypass_aborts_run
           (OS.check_port_usage Script.host) (OS.check_unix_socket_usage Script.host)
           (OS.get_systemctl_service Script.host) Script.oldest
           0 "ProxyPass / http://127.0.0.1:8080/" (Apache ∅ ∅ ∅ [empty_info])
           [TPair None None] 2 eq_refl Hall Hin Hlt).
Defined.

Lemma blank_probe_output_witness :
  PyStr.strip Script.nl = EmptyString
  /\ OS.check_port_usage Script2.silent [] "127.0.0.1" "7001" = UList [EStr EmptyString].
Proof.
  split; [reflexivity|].
  exact (proj1 (blank_probe_output Script2.silent (initial [Script.backend_7001])
                  Script.backend_7001 [] "127.0.0.1:7001" None "127.0.0.1:7001"
                  "127.0.0.1" "7001" Script.nl eq_refl eq_refl eq_refl eq_refl)).
Defined.

Lemma parse_systemctl_service_status_shape_witness :
  OS.parse_systemctl_service_status (PyStr.strip Script3.status_text)
  = inr ("nginx.service", "active (running) since Mon")
  /\ PyStr2.count " " "nginx.service" = 0.
Proof.
  assert (H : OS.parse_systemctl_service_status (PyStr.strip Script3.status_text)
              = inr ("nginx.service", "active (running) since Mon"))
    by (vm_compute; reflexivity).
  split; [exact H|].
  exact (proj1 (parse_systemctl_service_status_shape _ _ _ H)).
Defined.

Lemma report_key_round_trip_witness :
  locate ("http://" +:+ "127.0.0.1:8080/")
  = inr ("127.0.0.1:8080/", Tcp "127.0.0.1" "8080/")
  /\ report_key "127.0.0.1:8080/" = "http://" +:+ "127.0.0.1:8080/".
Proof.
  assert (H : locate ("http://" +:+ "127.0.0.1:8080/")
              = inr ("127.0.0.1:8080/", Tcp "127.0.0.1" "8080/")) by reflexivity.
  split; [exact H|].
  exact (proj2 (report_key_round_trip "127.0.0.1:8080/" _ _ H)).
Defined.

Lemma associated_domains_appends_in_place_witness :
  a_infos Script3.apache_result !! Some "http://127.0.0.1:8080/" = Some 0
  /\ a_infos Script3.apache_result !! Some "unix:/run/b.sock" = Some 0
  /\ exists heap1 heap2,
       associated_domains (a_infos Script3.apache_result) (a_heap Script3.apache_result)
         "http://127.0.0.1:8080/"
       = inr (["www.a.example"; "b.example"], heap1)
       /\ heap1 !! 0
          = Some (Info (Some (Some "unix:/run/b.sock", Some "http://127.0.0.1/"))
                       (Some "b.example") (Some ["www.a.example"; "b.example"]))
       /\ associated_domains (a_infos Script3.apache_result) heap1 "unix:/run/b.sock"
          = inr (["www.a.example"; "b.example"; "b.example"], heap2).
Proof.
  assert (H1 : a_infos Script3.apache_result !! Some "http://127.0.0.1:8080/" = Some 0)
    by (vm_compute; reflexivity).
  assert (H2 : a_infos Script3.apache_result !! Some "unix:/run/b.sock" = Some 0)
    by (vm_compute; reflexivity).
  split; [exact H1|]. split; [exact H2|].
  exact (associated_domains_appends_in_place (a_infos Script3.apache_result)
           (a_heap Script3.apache_result) "http://127.0.0.1:8080/" "unix:/run/b.sock" 0
           (Some (Some "unix:/run/b.sock", Some "http://127.0.0.1/"))
           "b.example" ["www.a.example"] H1 H2 eq_refl).
Defined.

(** X23: a line of an Apache file that begins, after its white space, with
    [#] changes nothing: no target, no domain, no entry of [infos], and the
    reader stays inside or outside the virtual host as it was. *)
Theorem apache_comment_line_ignored (cur : nat) (line : string) (s : bool * apache) :
  PyStr.startswith (PyStr.strip line) "#" = true ->
  apache_line cur line s = s.
Proof.
  intros Hc. destruct s as [in_virtual_host st]. unfold apache_line.
  assert (Hopen : PyStr.startswith (PyStr.strip line) "<VirtualHost" = false
                  /\ PyStr.startswith (PyStr.strip line) "</VirtualHost>" = false).
  { destruct (PyStr.strip line) as [|c l]; [discriminate|].
    rewrite startswith_cons in Hc. rewrite !startswith_cons.
    destruct (Ascii.eqb "#" c) eqn:Hh; [|discriminate].
    apply Ascii.eqb_eq in Hh as <-. by split. }
  destruct Hopen as [-> Hclose]. rewrite Hc, andb_false_r, Hclose. reflexivity.
Qed.

Lemma apache_comment_line_ignored_witness :
  PyStr.startswith (PyStr.strip "   # ProxyPass / http://127.0.0.1:1/") "#" = true
  /\ apache_line 0 "   # ProxyPass / http://127.0.0.1:1/" (true, Apache ∅ ∅ ∅ [empty_info])
     = (true, Apache ∅ ∅ ∅ [empty_info]).
Proof.
  split; [reflexivity|].
  exact (apache_comment_line_ignored 0 "   # ProxyPass / http://127.0.0.1:1/"
           (true, Apache ∅ ∅ ∅ [empty_info]) eq_refl).
Defined.
